(** * ipixelcli: the WebSocket-to-BLE bridge of LED-Matrix-BLE-Tools

    A shallow embedding of [src/ipixelcli.py]: bounded-retry connection
    acquisition ([connect_to_device]), the per-client handler
    ([handle_websocket]), the one-shot path ([execute_command]), the server
    start ([start_server]) and the [__main__] block.

    The BLE library, the WebSocket library, [json] and the encoders of the
    [commands] module are collaborators outside the file.  They are
    represented by an environment [Env] of scripted answers; every call to
    one of them is recorded, with the answer it gave, in a trace of events,
    so that "no device write", "exactly one write" or "the handle is
    released" become statements about traces. *)

From Stdlib Require Import ZArith String Ascii List Bool Lia DecimalString.
From Stdlib.Strings Require Byte.
Import ListNotations.

Local Set Warnings "-register-all".
Local Open Scope string_scope.
Local Open Scope Z_scope.

(** ** Python values and exceptions *)

Module Py.

(** The values [json.loads] can produce.  A float is kept as its literal. *)
Inductive value :=
| VNone
| VBool (b : bool)
| VInt (z : Z)
| VFloat (literal : string)
| VStr (s : string)
| VList (items : list value)
| VDict (entries : list (string * value)).

(** The exceptions the program distinguishes.  All three derive from
    [Exception]; [PyError] stands for every class that is neither
    [websockets.ConnectionClosed] nor [bleak.BleakError]. *)
Inductive exn :=
| ConnectionClosed (msg : string)
| BleakError (msg : string)
| PyError (cls : string) (msg : string).

(** [str(e)] *)
Definition str (e : exn) : string :=
  match e with
  | ConnectionClosed m => m
  | BleakError m => m
  | PyError _ m => m
  end.

Definition is_BleakError (e : exn) : bool :=
  match e with BleakError _ => true | _ => false end.

Definition is_ConnectionClosed (e : exn) : bool :=
  match e with ConnectionClosed _ => true | _ => false end.

(** A Python expression either has a value or raises. *)
Definition result (A : Type) : Type := (exn + A)%type.

Definition type_name (v : value) : string :=
  match v with
  | VNone => "NoneType"
  | VBool _ => "bool"
  | VInt _ => "int"
  | VFloat _ => "float"
  | VStr _ => "str"
  | VList _ => "list"
  | VDict _ => "dict"
  end.

(** The messages are those of CPython 3. *)
Definition AttributeError (v : value) (attr : string) : exn :=
  PyError "AttributeError"
    ("'" ++ type_name v ++ "' object has no attribute '" ++ attr ++ "'").

Definition unhashable (v : value) : exn :=
  PyError "TypeError" ("unhashable type: '" ++ type_name v ++ "'").

Definition not_iterable (v : value) : exn :=
  PyError "TypeError" ("'" ++ type_name v ++ "' object is not iterable").

Definition not_a_container (v : value) : exn :=
  PyError "TypeError"
    ("argument of type '" ++ type_name v ++ "' is not iterable").

Fixpoint lookup {A : Type} (k : string) (d : list (string * A)) : option A :=
  match d with
  | [] => None
  | (k', v) :: d' => if String.eqb k k' then Some v else lookup k d'
  end.

(** [d[k] = v] on a dict: an existing key keeps its place and takes the new
    value, a new key goes last. *)
Fixpoint setitem {A : Type} (k : string) (v : A) (d : list (string * A))
  : list (string * A) :=
  match d with
  | [] => [(k, v)]
  | (k', v') :: d' =>
      if String.eqb k k' then (k, v) :: d' else (k', v') :: setitem k v d'
  end.

(** [obj.get(key, default)]: only a dict has the method. *)
Definition get (obj : value) (key : string) (default : value) : result value :=
  match obj with
  | VDict d =>
      inr (match lookup key d with Some v => v | None => default end)
  | _ => inl (AttributeError obj "get")
  end.

Fixpoint chars (s : string) : list value :=
  match s with
  | EmptyString => []
  | String c s' => VStr (String c EmptyString) :: chars s'
  end.

(** What [for x in v] iterates over. *)
Definition iter (v : value) : result (list value) :=
  match v with
  | VList l => inr l
  | VStr s => inr (chars s)
  | VDict d => inr (map (fun kv => VStr (fst kv)) d)
  | _ => inl (not_iterable v)
  end.

(** ** The string operations of the parameter loop *)

(** [c in s] for a one-character [c]. *)
Fixpoint contains (c : ascii) (s : string) : bool :=
  match s with
  | EmptyString => false
  | String a s' => if Ascii.eqb a c then true else contains c s'
  end.

(** [s.split(c, 1)]: one part when [c] does not occur, else the text before
    the first [c] and the text after it. *)
Fixpoint split1 (c : ascii) (s : string) : list string :=
  match s with
  | EmptyString => [EmptyString]
  | String a s' =>
      if Ascii.eqb a c then [EmptyString; s']
      else match split1 c s' with
           | p :: rest => String a p :: rest
           | [] => []
           end
  end.

(** [s.replace(a, b)] for one-character [a] and [b]. *)
Fixpoint replace (a b : ascii) (s : string) : string :=
  match s with
  | EmptyString => EmptyString
  | String c s' => String (if Ascii.eqb c a then b else c) (replace a b s')
  end.

(** [str(n)] of an [int], as an f-string prints it. *)
Definition str_of_int (n : Z) : string := NilEmpty.string_of_int (Z.to_int n).

End Py.

Import Py.

(** ** The world outside the program *)

Definition bytes : Type := list Byte.byte.

(** A client handle is the [BleakClient] object an attempt creates; it is
    named by the number of the attempt. *)
Definition handle : Type := nat.

(** A keyword dict and a response dict, in insertion order. *)
Definition kwargs : Type := list (string * string).
Definition response : Type := list (string * string).

(** What [BleakClient(address)] followed by [client.connect()] does:
    it returns, leaving [client.is_connected] true or false, or it raises. *)
Inductive connect_result :=
| Returned (is_connected : bool)
| ConnectRaised (e : exn).

(** What [websocket.recv()] does.  An inbound message is represented by
    what [json.loads] makes of it: a decoded value, or the exception the
    decoding raises. *)
Inductive recv_result :=
| Message (loads : result value)
| RecvRaised (e : exn).

(** The collaborators.  Calls are answered in order: the [n]-th call of a
    primitive gets the [n]-th answer of its script.  An encoder is a pure
    function of its arguments; [None] for a call that returns normally. *)
Record Env := {
  connect_script : nat -> connect_result;
  recv_script : nat -> recv_result;
  encoder : string -> list value -> kwargs -> result bytes;
  write_script : nat -> option exn;
  send_script : nat -> option exn;
  disconnect_script : nat -> option exn;
  serve_script : option exn
}.

Inductive event :=
| EvConnect (address : string) (h : handle) (r : connect_result)
| EvSleep (seconds : Z)
| EvPrint (line : string)
| EvRecv (r : recv_result)
| EvEncode (name : string) (args : list value) (kw : kwargs) (r : result bytes)
| EvWrite (h : handle) (uuid : string) (data : bytes) (r : option exn)
| EvSend (resp : response) (r : option exn)
| EvDisconnect (h : handle) (r : option exn)
| EvServe (ip : string) (port : Z) (r : option exn).

(** The calls made so far, oldest first, and how many answers of each
    script are used up. *)
Record state := {
  trace : list event;
  n_connect : nat;
  n_recv : nat;
  n_write : nat;
  n_send : nat;
  n_disconnect : nat
}.

Definition initial : state :=
  {| trace := []; n_connect := 0; n_recv := 0; n_write := 0; n_send := 0;
     n_disconnect := 0 |}.

Definition log (ev : event) (s : state) : state :=
  {| trace := (trace s ++ [ev])%list; n_connect := n_connect s; n_recv := n_recv s;
     n_write := n_write s; n_send := n_send s;
     n_disconnect := n_disconnect s |}.

(** ** Computations *)

(** A coroutine run from a state returns a value, raises, or is still
    running (it waits for ever, or the fuel of a loop ran out); each case
    keeps the state reached. *)
Inductive outcome (A : Type) :=
| Done (a : A) (s : state)
| Raised (e : exn) (s : state)
| Pending (s : state).

Arguments Done {A} a s.
Arguments Raised {A} e s.
Arguments Pending {A} s.

Definition M (A : Type) : Type := state -> outcome A.

Definition ret {A : Type} (a : A) : M A := fun s => Done a s.

Definition raise {A : Type} (e : exn) : M A := fun s => Raised e s.

Definition bind {A B : Type} (m : M A) (k : A -> M B) : M B :=
  fun s =>
    match m s with
    | Done a s' => k a s'
    | Raised e s' => Raised e s'
    | Pending s' => Pending s'
    end.

Notation "x <- m ;; k" := (bind m (fun x => k))
  (at level 61, m at next level, right associativity).
Notation "m ;; k" := (bind m (fun _ => k))
  (at level 61, right associativity).

(** A pure Python expression inside a coroutine. *)
Definition lift {A : Type} (r : result A) : M A :=
  match r with
  | inl e => raise e
  | inr a => ret a
  end.

(** [try: body  except <clauses>]: [handler e] is the clause that matches
    [e], if there is one.  What a clause raises is not caught again. *)
Definition try_except {A : Type} (body : M A) (handler : exn -> option (M A))
  : M A :=
  fun s =>
    match body s with
    | Raised e s' =>
        match handler e with
        | Some h => h s'
        | None => Raised e s'
        end
    | o => o
    end.

(** [try: body  finally: cleanup]: the cleanup runs when the body returns
    and when it raises; an exception of the cleanup replaces the pending
    one. *)
Definition try_finally {A : Type} (body : M A) (cleanup : M unit) : M A :=
  fun s =>
    match body s with
    | Done a s' => (cleanup ;; ret a) s'
    | Raised e s' => (cleanup ;; raise e) s'
    | Pending s' => Pending s'
    end.

Definition final_state {A : Type} (o : outcome A) : state :=
  match o with
  | Done _ s => s
  | Raised _ s => s
  | Pending s => s
  end.

Definition terminated {A : Type} (o : outcome A) : bool :=
  match o with
  | Pending _ => false
  | _ => true
  end.

(** ** The primitives *)

Section Program.

Variable env : Env.

Definition print (line : string) : M unit :=
  fun s => Done tt (log (EvPrint line) s).

(** [await asyncio.sleep(seconds)] *)
Definition sleep (seconds : Z) : M unit :=
  fun s => Done tt (log (EvSleep seconds) s).

Definition count_connect (s : state) : state :=
  {| trace := trace s; n_connect := S (n_connect s); n_recv := n_recv s;
     n_write := n_write s; n_send := n_send s;
     n_disconnect := n_disconnect s |}.

Definition count_recv (s : state) : state :=
  {| trace := trace s; n_connect := n_connect s; n_recv := S (n_recv s);
     n_write := n_write s; n_send := n_send s;
     n_disconnect := n_disconnect s |}.

Definition count_write (s : state) : state :=
  {| trace := trace s; n_connect := n_connect s; n_recv := n_recv s;
     n_write := S (n_write s); n_send := n_send s;
     n_disconnect := n_disconnect s |}.

Definition count_send (s : state) : state :=
  {| trace := trace s; n_connect := n_connect s; n_recv := n_recv s;
     n_write := n_write s; n_send := S (n_send s);
     n_disconnect := n_disconnect s |}.

Definition count_disconnect (s : state) : state :=
  {| trace := trace s; n_connect := n_connect s; n_recv := n_recv s;
     n_write := n_write s; n_send := n_send s;
     n_disconnect := S (n_disconnect s) |}.

Definition answer (r : option exn) (s : state) : outcome unit :=
  match r with
  | None => Done tt s
  | Some e => Raised e s
  end.

(** [client = BleakClient(address); await client.connect()], then
    [client.is_connected]: the new client and whether it is connected. *)
Definition ble_connect (address : string) : M (handle * bool) :=
  fun s =>
    let h := n_connect s in
    let r := connect_script env h in
    let s' := count_connect (log (EvConnect address h r) s) in
    match r with
    | Returned c => Done (h, c) s'
    | ConnectRaised e => Raised e s'
    end.

(** [await websocket.recv()], then [json.loads(message)] *)
Definition ws_recv : M (result value) :=
  fun s =>
    let r := recv_script env (n_recv s) in
    let s' := count_recv (log (EvRecv r) s) in
    match r with
    | Message m => Done m s'
    | RecvRaised e => Raised e s'
    end.

(** The call of [COMMANDS[name]] with the positional arguments unpacked and
    the keyword dict as keyword arguments. *)
Definition call_encoder (name : string) (args : list value) (kw : kwargs)
  : M bytes :=
  fun s =>
    let r := encoder env name args kw in
    lift r (log (EvEncode name args kw r) s).

(** [await client.write_gatt_char(uuid, data)] *)
Definition write_gatt_char (h : handle) (uuid : string) (data : bytes)
  : M unit :=
  fun s =>
    let r := write_script env (n_write s) in
    answer r (count_write (log (EvWrite h uuid data r) s)).

(** [await websocket.send(json.dumps(resp))] *)
Definition ws_send (resp : response) : M unit :=
  fun s =>
    let r := send_script env (n_send s) in
    answer r (count_send (log (EvSend resp r) s)).

(** [await client.disconnect()] *)
Definition ble_disconnect (h : handle) : M unit :=
  fun s =>
    let r := disconnect_script env (n_disconnect s) in
    answer r (count_disconnect (log (EvDisconnect h r) s)).

(** [await serve(handler, ip, port)] *)
Definition ws_serve (ip : string) (port : Z) : M unit :=
  fun s =>
    let r := serve_script env in
    answer r (log (EvServe ip port r) s).

(** [await server.wait_closed()]: nothing in the program closes the server,
    so the wait does not end. *)
Definition wait_closed : M unit := fun s => Pending s.

(** ** The command table (lines 9-21) *)

(** The names of the table; the encoder a name maps to is [encoder env]. *)
Definition COMMANDS : list string :=
  ["clear"; "set_brightness"; "set_clock_mode"; "set_fun_mode"; "set_pixel";
   "delete_screen"; "send_text"; "set_screen"; "set_speed"; "send_animation";
   "set_orientation"].

(** [command_name in COMMANDS]: the test hashes its left operand, which a
    list or a dict refuses; a registered name is handed on for the call
    [COMMANDS[command_name]]. *)
Definition in_COMMANDS (command_name : value) : result (option string) :=
  match command_name with
  | VStr name =>
      inr (if existsb (String.eqb name) COMMANDS then Some name else None)
  | VList _ | VDict _ => inl (unhashable command_name)
  | _ => inr None
  end.

Definition WRITE_UUID : string := "0000fa02-0000-1000-8000-00805f9b34fb".

(** ** connect_to_device (lines 24-38) *)

Definition default_max_retries : Z := 5.

Definition connection_failed (retries max_retries : Z) (e : exn) : string :=
  "[ERROR] Connection failed (" ++ str_of_int (retries + 1) ++ "/"
    ++ str_of_int max_retries ++ "): " ++ str e.

(** One pass through the body of the [while]: [inl client] when the body
    returns from the function, [inr retries] when the loop goes on. *)
Definition connect_attempt (address : string) (max_retries retries : Z)
  : M (handle + Z) :=
  try_except
    (client <- ble_connect address ;;
     if snd client
     then print "[INFO] Connected to the device" ;; ret (inl (fst client))
     else ret (inr retries))
    (fun e =>
       match e with
       | BleakError _ =>
           Some (print (connection_failed retries max_retries e) ;;
                 sleep 5 ;;
                 ret (inr (retries + 1)))
       | _ => None
       end).

Fixpoint connect_loop (fuel : nat) (address : string)
    (max_retries retries : Z) : M (option handle) :=
  if retries <? max_retries then
    match fuel with
    | O => fun s => Pending s
    | S fuel' =>
        r <- connect_attempt address max_retries retries ;;
        match r with
        | inl client => ret (Some client)
        | inr retries' => connect_loop fuel' address max_retries retries'
        end
    end
  else
    print "[ERROR] Could not connect to the device after multiple attempts" ;;
    ret None.

Definition connect_to_device (fuel : nat) (address : string)
    (max_retries : Z) : M (option handle) :=
  connect_loop fuel address max_retries 0.

(** ** The parameter loop (lines 54-61 and 92-99) *)

Definition is_eq_sign (v : value) : bool :=
  match v with
  | VStr s => String.eqb s "="
  | _ => false
  end.

(** The test of line 57 on an arbitrary value. *)
Definition has_eq_sign (param : value) : result bool :=
  match param with
  | VStr s => inr (contains "=" s)
  | VList l => inr (existsb is_eq_sign l)
  | VDict d => inr (match lookup "=" d with Some _ => true | None => false end)
  | _ => inl (not_a_container param)
  end.

Definition unpack_error : exn :=
  PyError "ValueError" "not enough values to unpack (expected 2, got 1)".

(** The body of the [for]: the lists after [param] is handled. *)
Definition classify (param : value) (acc : list value * kwargs)
  : result (list value * kwargs) :=
  match has_eq_sign param with
  | inl e => inl e
  | inr true =>
      match param with
      | VStr s =>
          match split1 "=" s with
          | [key; val] =>
              inr (fst acc, setitem (replace "-" "_" key) val (snd acc))
          | _ => inl unpack_error
          end
      | _ => inl (AttributeError param "split")
      end
  | inr false => inr ((fst acc ++ [param])%list, snd acc)
  end.

Fixpoint classify_all (params : list value) (acc : list value * kwargs)
  : result (list value * kwargs) :=
  match params with
  | [] => inr acc
  | param :: rest =>
      match classify param acc with
      | inl e => inl e
      | inr acc' => classify_all rest acc'
      end
  end.

(** [positional_args] and [keyword_args] after the loop. *)
Definition parse_params (params : value) : result (list value * kwargs) :=
  match iter params with
  | inl e => inl e
  | inr items => classify_all items ([], [])
  end.

(** ** handle_websocket (lines 40-78) *)

Definition success (command_name : string) : response :=
  [("status", "success"); ("command", command_name)].

Definition error (message : string) : response :=
  [("status", "error"); ("message", message)].

(** Lines 53-67: the branch on the command table. *)
Definition dispatch (client : handle) (command_name params : value)
  : M response :=
  registered <- lift (in_COMMANDS command_name) ;;
  match registered with
  | Some name =>
      args <- lift (parse_params params) ;;
      data <- call_encoder name (fst args) (snd args) ;;
      write_gatt_char client WRITE_UUID data ;;
      ret (success name)
  | None => ret (error "Unknown command")
  end.

(** Lines 48-69: the inner [try], whose [except Exception] clause catches
    every exception the block raises. *)
Definition process_message (client : handle) (message : result value)
  : M response :=
  try_except
    (command_data <- lift message ;;
     command_name <- lift (get command_data "command" VNone) ;;
     params <- lift (get command_data "params" (VList [])) ;;
     dispatch client command_name params)
    (fun e => Some (ret (error (str e)))).

(** Lines 46-71: [while True]. *)
Fixpoint session_loop (fuel : nat) (client : handle) : M unit :=
  match fuel with
  | O => fun s => Pending s
  | S fuel' =>
      message <- ws_recv ;;
      resp <- process_message client message ;;
      ws_send resp ;;
      session_loop fuel' client
  end.

Fixpoint handle_websocket (fuel : nat) (path address : string) : M unit :=
  match fuel with
  | O => fun s => Pending s
  | S fuel' =>
      client <- connect_to_device fuel' address default_max_retries ;;
      match client with
      | None => ret tt
      | Some c =>
          try_finally
            (try_except (session_loop fuel' c)
               (fun e =>
                  match e with
                  | ConnectionClosed _ =>
                      Some (print "[INFO] Websocket connection closed")
                  | BleakError _ =>
                      Some (print "[ERROR] BLE connection lost, attempting to reconnect..." ;;
                            handle_websocket fuel' path address)
                  | _ => None
                  end))
            (ble_disconnect c)
      end
  end.

(** ** start_server (lines 80-83) *)

(** The handlers of the accepted connections are run by the WebSocket
    library, one task per connection; they are runs of [handle_websocket]
    and are looked at one by one, not as part of this coroutine. *)
Definition start_server (ip : string) (port : Z) (address : string) : M unit :=
  ws_serve ip port ;;
  print ("WebSocket server started on ws://" ++ ip ++ ":" ++ str_of_int port) ;;
  wait_closed.

(** ** execute_command (lines 85-107) *)

Definition execute_command (fuel : nat) (command_name : string)
    (params : list string) (address : string) : M unit :=
  client <- connect_to_device fuel address default_max_retries ;;
  match client with
  | None => ret tt
  | Some c =>
      try_finally
        (registered <- lift (in_COMMANDS (VStr command_name)) ;;
         match registered with
         | Some name =>
             args <- lift (parse_params (VList (map VStr params))) ;;
             data <- call_encoder name (fst args) (snd args) ;;
             write_gatt_char c WRITE_UUID data ;;
             print ("[INFO] Command '" ++ command_name
                      ++ "' executed successfully.")
         | None => print ("[ERROR] Unknown command: " ++ command_name)
         end)
        (ble_disconnect c)
  end.

(** ** The main block (lines 109-126) *)

(** What [parser.parse_args()] returns: [--command] is absent ([None]) or a
    list ([nargs="+"]); [--port] is an [int]. *)
Record Namespace := {
  server : bool;
  port : Z;
  command : option (list string);
  address : string
}.

(** The default of [--port] (line 112). *)
Definition default_port : Z := 4444.

(** A command line that [parse_args] accepts, by what it gives for the
    four arguments declared in lines 111-115: [-s] present or not, [-p]
    with its integer or absent, [-c] with its arguments or absent, [-a]
    with its address.  (A command line that [parse_args] refuses is an
    [Invocation] that [accepted] turns down, further on.) *)
Record CommandLine := {
  flag_server : bool;
  opt_port : option Z;
  opt_command : option (list string);
  opt_address : string
}.

(** The namespace [parse_args] returns for an accepted command line, with
    the declared defaults. *)
Definition parse_args (cl : CommandLine) : Namespace :=
  {| server := flag_server cl;
     port := match opt_port cl with Some p => p | None => default_port end;
     command := opt_command cl;
     address := opt_address cl |}.

Definition no_mode : string :=
  "[ERROR] No mode specified. Use --server or -c with -a to specify an address.".

Definition main (fuel : nat) (args : Namespace) : M unit :=
  if server args then
    start_server "localhost" (port args) (address args)
  else
    match command args with
    | Some (command_name :: params) =>
        execute_command fuel command_name params (address args)
    | _ => print no_mode
    end.

End Program.

(** The exit status of the process when the main block has run: 0 when it
    reaches its end, 1 when an exception is not caught; none while it
    runs. *)
Definition exit_status (o : outcome unit) : option Z :=
  match o with
  | Done _ _ => Some 0
  | Raised _ _ => Some 1
  | Pending _ => None
  end.

(** ** The envelope as the specification words it *)

Module Envelope.

(** The text before the first [c] of a token, and the text after it. *)
Fixpoint before (c : ascii) (s : string) : string :=
  match s with
  | EmptyString => EmptyString
  | String a s' => if Ascii.eqb a c then EmptyString else String a (before c s')
  end.

Fixpoint after (c : ascii) (s : string) : string :=
  match s with
  | EmptyString => EmptyString
  | String a s' => if Ascii.eqb a c then s' else after c s'
  end.

(** Every [-] of a key rewritten to [_], character by character. *)
Definition normalize (key : string) : string :=
  string_of_list_ascii
    (map (fun c => if Ascii.eqb c "-" then "_"%char else c)
       (list_ascii_of_string key)).

(** The one keyword entry of a token that contains [=]. *)
Definition keyword_entry (token : string) : string * string :=
  (normalize (before "=" token), after "=" token).

Definition is_keyword (token : string) : bool := contains "=" token.

Definition is_positional (token : string) : bool := negb (contains "=" token).

(** The entries put into a dict one after the other. *)
Definition insert_all (entries : list (string * string)) (d : kwargs) : kwargs :=
  fold_left (fun d e => setitem (fst e) (snd e) d) entries d.

End Envelope.

(** ** Observations on inbound objects and on traces *)

(** The command name an inbound object carries: the value of its
    [command] field, [None] when the field is missing. *)
Definition command_of (fields : list (string * value)) : value :=
  match lookup "command" fields with
  | Some v => v
  | None => VNone
  end.

Definition params_of (fields : list (string * value)) : value :=
  match lookup "params" fields with
  | Some v => v
  | None => VList []
  end.

(** A list and a dict have no hash. *)
Definition hashable (v : value) : bool :=
  match v with
  | VList _ | VDict _ => false
  | _ => true
  end.

Definition registered (v : value) : Prop :=
  exists name, v = VStr name /\ In name COMMANDS.

(** The handles of the attempts that left the client connected, the
    disconnect calls with their answers, and the handles they were made
    on. *)
Definition acquired (t : list event) : list handle :=
  flat_map (fun ev => match ev with
                      | EvConnect _ h (Returned true) => [h]
                      | _ => []
                      end) t.

Definition disconnects (t : list event) : list (handle * option exn) :=
  flat_map (fun ev => match ev with
                      | EvDisconnect h r => [(h, r)]
                      | _ => []
                      end) t.

Definition released (t : list event) : list handle := map fst (disconnects t).

Definition is_connect (ev : event) : bool :=
  match ev with EvConnect _ _ _ => true | _ => false end.

Definition is_sleep (ev : event) : bool :=
  match ev with EvSleep _ => true | _ => false end.

Definition is_write (ev : event) : bool :=
  match ev with EvWrite _ _ _ _ => true | _ => false end.

Definition is_send (ev : event) : bool :=
  match ev with EvSend _ _ => true | _ => false end.

Definition is_encode (ev : event) : bool :=
  match ev with EvEncode _ _ _ _ => true | _ => false end.

Definition count (p : event -> bool) (t : list event) : nat :=
  length (filter p t).

(** The events a session loop can add: all but connecting, disconnecting,
    sleeping and serving. *)
Definition session_event (ev : event) : bool :=
  match ev with
  | EvRecv _ | EvEncode _ _ _ _ | EvWrite _ _ _ _ | EvSend _ _ | EvPrint _ =>
      true
  | _ => false
  end.

(** ** Environments for concrete runs *)

Definition closed : exn := ConnectionClosed "connection closed".

(** A reachable device, a working link, a client that sends nothing and
    closes; encoders that take any arguments. *)
Definition quiet : Env := {|
  connect_script := fun _ => Returned true;
  recv_script := fun _ => RecvRaised closed;
  encoder := fun _ _ _ => inr [Byte.x01];
  write_script := fun _ => None;
  send_script := fun _ => None;
  disconnect_script := fun _ => None;
  serve_script := None
|}.

Definition with_connect (f : nat -> connect_result) (e : Env) : Env := {|
  connect_script := f;
  recv_script := recv_script e;
  encoder := encoder e;
  write_script := write_script e;
  send_script := send_script e;
  disconnect_script := disconnect_script e;
  serve_script := serve_script e
|}.

Definition with_recv (f : nat -> recv_result) (e : Env) : Env := {|
  connect_script := connect_script e;
  recv_script := f;
  encoder := encoder e;
  write_script := write_script e;
  send_script := send_script e;
  disconnect_script := disconnect_script e;
  serve_script := serve_script e
|}.

Definition with_encoder
    (f : string -> list value -> kwargs -> result bytes) (e : Env) : Env := {|
  connect_script := connect_script e;
  recv_script := recv_script e;
  encoder := f;
  write_script := write_script e;
  send_script := send_script e;
  disconnect_script := disconnect_script e;
  serve_script := serve_script e
|}.

Definition with_write (f : nat -> option exn) (e : Env) : Env := {|
  connect_script := connect_script e;
  recv_script := recv_script e;
  encoder := encoder e;
  write_script := f;
  send_script := send_script e;
  disconnect_script := disconnect_script e;
  serve_script := serve_script e
|}.

Definition with_disconnect (f : nat -> option exn) (e : Env) : Env := {|
  connect_script := connect_script e;
  recv_script := recv_script e;
  encoder := encoder e;
  write_script := write_script e;
  send_script := send_script e;
  disconnect_script := f;
  serve_script := serve_script e
|}.

(** The first answers of a script are those of a list, the later ones a
    fixed answer. *)
Definition script {A : Type} (answers : list A) (then_ : A) (n : nat) : A :=
  nth n answers then_.

Definition bad_value : exn :=
  PyError "ValueError" "invalid literal for int() with base 10: 'x'".

Definition brightness_x : list (string * value) :=
  [("command", VStr "set_brightness"); ("params", VList [VStr "x"])].

(** A client that sends one request the encoder refuses, then closes. *)
Definition refusing : Env :=
  with_recv (script [Message (inr (VDict brightness_x))] (RecvRaised closed))
    (with_encoder (fun _ _ _ => inl bad_value) quiet).

(** A device whose connect call returns without an error and without a
    connection. *)
Definition unconnected : Env := with_connect (fun _ => Returned false) quiet.



(** A device out of reach: every connect call raises a [BleakError]. *)
Definition out_of_reach : Env :=
  with_connect (fun _ => ConnectRaised (BleakError "device not found")) quiet.


Fixpoint starts_with (prefix s : string) : bool :=
  match prefix with
  | EmptyString => true
  | String a prefix' =>
      match s with
      | EmptyString => false
      | String b s' => Ascii.eqb a b && starts_with prefix' s'
      end
  end.

Definition is_failure_log (ev : event) : bool :=
  match ev with
  | EvPrint line => starts_with "[ERROR] Connection failed (" line
  | _ => false
  end.

Definition is_retry_delay (ev : event) : bool :=
  match ev with EvSleep 5 => true | _ => false end.

Definition gave_up : event :=
  EvPrint "[ERROR] Could not connect to the device after multiple attempts".

(** A computation that, from every state, adds only events of one kind to
    the trace. *)
Definition emits {A : Type} (kind : event -> bool) (m : M A) : Prop :=
  forall s, exists t,
    trace (final_state (m s)) = (trace s ++ t)%list
    /\ Forall (fun ev => kind ev = true) t.

(** The exception of the last disconnect call that raised, if one did. *)
Definition last_error (ds : list (handle * option exn)) : option exn :=
  fold_left (fun acc d => match snd d with Some e => Some e | None => acc end)
    ds None.

(** A run that, once it has come to an end, has called disconnect once on
    every client it acquired, the last acquired first, and that ends with
    the exception of a disconnect call when one raised. *)
Definition releases_all {A : Type} (s : state) (o : outcome A) : Prop :=
  exists t,
    trace (final_state o) = (trace s ++ t)%list
    /\ (terminated o = true -> released t = rev (acquired t))
    /\ (forall e, terminated o = true ->
                  last_error (disconnects t) = Some e ->
                  exists s', o = Raised e s').

(** A link whose disconnect call fails. *)
Definition stuck : Env :=
  with_disconnect (fun _ => Some (BleakError "disconnect failed")) quiet.


Definition clear_request : result value :=
  inr (VDict [("command", VStr "clear")]).



(** ** Further observations *)

(** What acquisition adds to the trace for connect calls that fail one
    after the other with a [BleakError] ([errors] are their messages), the
    first of them made on client [h] with [retries] failures counted. *)
Fixpoint failed_attempts (address : string) (max_retries : Z) (h : handle)
    (retries : Z) (errors : list string) : list event :=
  match errors with
  | [] => []
  | m :: rest =>
      EvConnect address h (ConnectRaised (BleakError m))
      :: EvPrint (connection_failed retries max_retries (BleakError m))
      :: EvSleep 5
      :: failed_attempts address max_retries (S h) (retries + 1) rest
  end.

(** A device that is busy twice and then connects. *)
Definition busy_twice : Env :=
  with_connect
    (script [ConnectRaised (BleakError "busy"); ConnectRaised (BleakError "busy")]
       (Returned true))
    quiet.

(** A client that sends one [clear] request and closes, over a link that
    refuses every write. *)
Definition refusing_writes : Env :=
  with_recv (script [Message clear_request] (RecvRaised closed))
    (with_write (fun _ => Some (BleakError "not connected")) quiet).

Definition is_message (ev : event) : bool :=
  match ev with EvRecv (Message _) => true | _ => false end.

Definition decode_error : exn :=
  PyError "JSONDecodeError" "Expecting value: line 1 column 1 (char 0)".

(** Reading a trace against the stack of the clients that are live, those
    acquired and not yet disconnected, the last acquired on top: a connect
    call that leaves its client connected puts it on the stack; a write
    must be made on the client on top, to the one characteristic; a
    disconnect must be made on the client on top, and takes it off.  The
    result is the stack at the end, or [None] when a call breaks the
    rule. *)
Fixpoint use_handles (t : list event) (live : list handle)
  : option (list handle) :=
  match t with
  | [] => Some live
  | EvConnect _ h (Returned true) :: t' => use_handles t' (h :: live)
  | EvWrite h uuid _ _ :: t' =>
      match live with
      | c :: _ =>
          if Nat.eqb h c && String.eqb uuid WRITE_UUID
          then use_handles t' live
          else None
      | [] => None
      end
  | EvDisconnect h _ :: t' =>
      match live with
      | c :: rest => if Nat.eqb h c then use_handles t' rest else None
      | [] => None
      end
  | _ :: t' => use_handles t' live
  end.

(** A run that keeps to the rule from every stack it may start with, and
    that, once it has come to an end, has left the stack as it found it. *)
Definition handles_well_used {A : Type} (s : state) (o : outcome A) : Prop :=
  exists t,
    trace (final_state o) = (trace s ++ t)%list
    /\ forall live, exists live',
         use_handles t live = Some (live' ++ live)%list
         /\ (terminated o = true -> live' = []).

(** The events of the session of one client: as [session_event], with
    every write made on that client and to the one characteristic. *)
Definition session_event_of (c : handle) (ev : event) : bool :=
  match ev with
  | EvRecv _ | EvEncode _ _ _ _ | EvSend _ _ | EvPrint _ => true
  | EvWrite h uuid _ _ => Nat.eqb h c && String.eqb uuid WRITE_UUID
  | _ => false
  end.

(** The events of acquisition. *)
Definition acquisition_event (ev : event) : bool :=
  match ev with
  | EvConnect _ _ _ | EvPrint _ | EvSleep _ => true
  | _ => false
  end.

(** What the one-shot path passes to the encoder for a list of
    parameters. *)
Definition positional_of (params : list string) : list value :=
  map VStr (filter Envelope.is_positional params).

Definition keywords_of (params : list string) : kwargs :=
  Envelope.insert_all
    (map Envelope.keyword_entry (filter Envelope.is_keyword params)) [].

Definition executed (command_name : string) : string :=
  "[INFO] Command '" ++ command_name ++ "' executed successfully.".

Definition unknown_command (command_name : string) : string :=
  "[ERROR] Unknown command: " ++ command_name.

(** A command line of the one-shot mode. *)
Definition one_shot (command_line : list string) (address : string)
  : CommandLine :=
  {| flag_server := false; opt_port := None; opt_command := Some command_line;
     opt_address := address |}.

(** A link that is lost at the receive layer, to a device that cannot be
    reached again. *)
Definition lost_for_good : Env :=
  with_recv (fun _ => RecvRaised (BleakError "lost"))
    (with_connect
       (script [Returned true] (ConnectRaised (BleakError "device not found")))
       quiet).

(** A value that is neither a string nor a container. *)
Definition is_scalar (v : value) : bool :=
  match v with
  | VNone | VBool _ | VInt _ | VFloat _ => true
  | _ => false
  end.

(** A request as a client sends it: a command name and string parameters;
    with it, the bytes the encoder returns for it. *)
Definition request : Type := (string * list string * bytes)%type.

Definition request_fields (r : request) : list (string * value) :=
  [("command", VStr (fst (fst r)));
   ("params", VList (map VStr (snd (fst r))))].

Definition request_message (r : request) : recv_result :=
  Message (inr (VDict (request_fields r))).

(** What a session loop on client [c] adds to the trace for requests that
    are served one after the other. *)
Fixpoint served_trace (c : handle) (requests : list request) : list event :=
  match requests with
  | [] => []
  | r :: rest =>
      EvRecv (request_message r)
      :: EvEncode (fst (fst r)) (positional_of (snd (fst r)))
           (keywords_of (snd (fst r))) (inr (snd r))
      :: EvWrite c WRITE_UUID (snd r) None
      :: EvSend (success (fst (fst r))) None
      :: served_trace c rest
  end.

Definition two_requests : list request :=
  [("clear", [], [Byte.x01]); ("set_brightness", ["80"], [Byte.x01])].

(** A client that sends these two requests and closes. *)
Definition serving : Env :=
  with_recv (script (map request_message two_requests) (RecvRaised closed))
    quiet.

(** From state [s] on, the [i]-th message received is the request [r],
    its encoder returns the bytes of [r], and the write and the send made
    for it return. *)
Definition served_at (env : Env) (s : state) (i : nat) (r : request) : Prop :=
  recv_script env (n_recv s + i)%nat = request_message r
  /\ In (fst (fst r)) COMMANDS
  /\ encoder env (fst (fst r)) (positional_of (snd (fst r)))
       (keywords_of (snd (fst r)))
     = inr (snd r)
  /\ write_script env (n_write s + i)%nat = None
  /\ send_script env (n_send s + i)%nat = None.

(** A port that is taken: the serve call raises. *)
Definition port_taken : Env := {|
  connect_script := connect_script quiet;
  recv_script := recv_script quiet;
  encoder := encoder quiet;
  write_script := write_script quiet;
  send_script := send_script quiet;
  disconnect_script := disconnect_script quiet;
  serve_script := Some (PyError "OSError" "address already in use")
|}.

Definition protocol_error : exn :=
  PyError "ProtocolError" "invalid frame".

(** A WebSocket whose receive raises an exception that is neither a close
    nor a BLE error. *)
Definition broken_socket : Env :=
  with_recv (fun _ => RecvRaised protocol_error) quiet.

(** ** The command line before it is checked (lines 110-117) *)

(** What an invocation gives for [-p]: nothing, a text that [int]
    accepts, or a text that it refuses. *)
Inductive port_argument :=
| PortAbsent
| PortInt (p : Z)
| PortNotInt (text : string).

(** An invocation, by what it gives for the four declared arguments, each
    of which may be missing or ill-formed.  (Arguments that are not
    declared, and [-h], are left aside.) *)
Record Invocation := {
  given_server : bool;
  given_port : port_argument;
  given_command : option (list string);
  given_address : option string
}.

(** [parser.parse_args()] accepts an invocation when [-a] is given
    ([required=True], line 115), the text of [-p] is an integer
    ([type=int], line 112) and [-c] comes with at least one argument
    ([nargs="+"], line 113); it refuses every other one. *)
Definition accepted (i : Invocation) : option CommandLine :=
  match given_address i, given_port i, given_command i with
  | None, _, _ => None
  | Some _, PortNotInt _, _ => None
  | Some _, _, Some [] => None
  | Some a, p, c =>
      Some {| flag_server := given_server i;
              opt_port := match p with PortInt n => Some n | _ => None end;
              opt_command := c;
              opt_address := a |}
  end.

(** What the process does with an invocation: for one that [parse_args]
    refuses, the parser prints its usage error on the standard error
    stream and exits with a status; for an accepted one, the main block
    runs. *)
Inductive process :=
| UsageError (status : Z)
| Ran (o : outcome unit).

(** The status of the exit of the parser: [parser.error] exits with 2. *)
Definition usage_status : Z := 2.

Definition invoke (env : Env) (fuel : nat) (i : Invocation) (s : state)
  : process :=
  match accepted i with
  | None => UsageError usage_status
  | Some cl => Ran (main env fuel (parse_args cl) s)
  end.



(** * Properties *)

Local Close Scope Z_scope.
Local Open Scope list_scope.

(** ** Strings *)

Example split1_first_only : split1 "=" "y=5=6" = ["y"; "5=6"].
Proof. reflexivity. Qed.

Example split1_absent : split1 "=" "abc" = ["abc"].
Proof. reflexivity. Qed.

Example replace_every_dash : replace "-" "_" "--foo-bar" = "__foo_bar".
Proof. reflexivity. Qed.

Example connection_failed_line :
  connection_failed 0%Z 5%Z (BleakError "timeout")
  = "[ERROR] Connection failed (1/5): timeout".
Proof. reflexivity. Qed.

Lemma split1_contains (c : ascii) (s : string) :
  contains c s = true ->
  split1 c s = [Envelope.before c s; Envelope.after c s].
Proof.
  induction s as [|a s IH]; simpl; [discriminate|].
  destruct (Ascii.eqb a c); [reflexivity|].
  intros H. rewrite (IH H). reflexivity.
Qed.

Lemma split1_no_sep (c : ascii) (s : string) :
  contains c s = false -> split1 c s = [s].
Proof.
  induction s as [|a s IH]; simpl; [reflexivity|].
  destruct (Ascii.eqb a c); [discriminate|].
  intros H. rewrite (IH H). reflexivity.
Qed.

(** A token that contains [c] is its text before the first [c], then [c],
    then the rest, and the text before holds no [c]. *)
Lemma before_after_split (c : ascii) (s : string) :
  contains c s = true ->
  s = (Envelope.before c s ++ String c (Envelope.after c s))%string
  /\ contains c (Envelope.before c s) = false.
Proof.
  induction s as [|a s IH]; simpl; [discriminate|].
  destruct (Ascii.eqb a c) eqn:E.
  - intros _. apply Ascii.eqb_eq in E. subst a. split; reflexivity.
  - intros H. destruct (IH H) as [Hs Hb]. split.
    + simpl. f_equal. exact Hs.
    + simpl. rewrite E. exact Hb.
Qed.

Lemma replace_normalize (key : string) :
  replace "-" "_" key = Envelope.normalize key.
Proof.
  unfold Envelope.normalize.
  induction key as [|a s IH]; simpl; [reflexivity|].
  rewrite IH. reflexivity.
Qed.

(** No [-] is left in a normalized key, so normalizing twice changes
    nothing. *)
Lemma normalize_no_dash (key : string) :
  contains "-" (Envelope.normalize key) = false.
Proof.
  rewrite <- replace_normalize.
  induction key as [|a s IH]; simpl; [reflexivity|].
  destruct (Ascii.eqb a "-") eqn:E; simpl; [exact IH|].
  rewrite E. exact IH.
Qed.

Lemma replace_absent (a b : ascii) (s : string) :
  contains a s = false -> replace a b s = s.
Proof.
  induction s as [|c s IH]; simpl; [reflexivity|].
  destruct (Ascii.eqb c a); [discriminate|].
  intros H. rewrite (IH H). reflexivity.
Qed.

Lemma normalize_idempotent (key : string) :
  Envelope.normalize (Envelope.normalize key) = Envelope.normalize key.
Proof.
  rewrite <- (replace_normalize (Envelope.normalize key)).
  apply replace_absent, normalize_no_dash.
Qed.

(** ** Dicts *)

Lemma lookup_setitem {A : Type} (k k' : string) (v : A) (d : list (string * A)) :
  lookup k (setitem k' v d) = if String.eqb k k' then Some v else lookup k d.
Proof.
  induction d as [|[k0 v0] d IH]; simpl.
  - reflexivity.
  - destruct (String.eqb k' k0) eqn:E0; simpl.
    + apply String.eqb_eq in E0. subst k0.
      destruct (String.eqb k k'); reflexivity.
    + destruct (String.eqb k k0) eqn:E1.
      * apply String.eqb_eq in E1. subst k0.
        rewrite String.eqb_sym in E0. rewrite E0. reflexivity.
      * exact IH.
Qed.

(** After a run of insertions a key holds the value of the last entry
    inserted under it. *)
Lemma lookup_insert_all (k : string) (entries : list (string * string))
    (d : kwargs) :
  lookup k (Envelope.insert_all entries d)
  = match lookup k (rev entries) with
    | Some v => Some v
    | None => lookup k d
    end.
Proof.
  unfold Envelope.insert_all.
  revert d. induction entries as [|e es IH] using rev_ind; intros d.
  - reflexivity.
  - rewrite fold_left_app, rev_app_distr. simpl.
    rewrite lookup_setitem. destruct e as [k' v]. simpl.
    destruct (String.eqb k k'); [reflexivity|]. apply IH.
Qed.

Lemma setitem_new {A : Type} (k : string) (v : A) (d : list (string * A)) :
  lookup k d = None -> setitem k v d = (d ++ [(k, v)])%list.
Proof.
  induction d as [|[k0 v0] d IH]; simpl; [reflexivity|].
  destruct (String.eqb k k0); [discriminate|].
  intros H. rewrite (IH H). reflexivity.
Qed.

Lemma lookup_None_not_in {A : Type} (k : string) (d : list (string * A)) :
  ~ In k (map fst d) -> lookup k d = None.
Proof.
  induction d as [|[k0 v0] d IH]; simpl; [reflexivity|].
  intros H. destruct (String.eqb k k0) eqn:E.
  - apply String.eqb_eq in E. subst k0. exfalso. apply H. left. reflexivity.
  - apply IH. intros Hin. apply H. right. exact Hin.
Qed.

(** Entries whose keys differ from each other and from those of the dict
    are all kept, in the order of insertion. *)
Lemma insert_all_distinct (entries : list (string * string)) (d : kwargs) :
  NoDup (map fst (d ++ entries)) ->
  Envelope.insert_all entries d = (d ++ entries)%list.
Proof.
  unfold Envelope.insert_all.
  revert d. induction entries as [|[k v] es IH]; intros d Hnd; simpl.
  - rewrite app_nil_r. reflexivity.
  - assert (Hk : lookup k d = None).
    { apply lookup_None_not_in. intros Hin.
      rewrite map_app in Hnd. simpl in Hnd.
      apply NoDup_remove_2 in Hnd. apply Hnd.
      apply in_or_app. left. exact Hin. }
    rewrite (setitem_new _ _ _ Hk).
    rewrite IH.
    + rewrite <- app_assoc. reflexivity.
    + rewrite <- app_assoc. exact Hnd.
Qed.

(** ** The parameter loop *)

Lemma classify_token (token : string) (acc : list value * kwargs) :
  classify (VStr token) acc
  = inr (if Envelope.is_keyword token
         then (fst acc,
               setitem (fst (Envelope.keyword_entry token))
                 (snd (Envelope.keyword_entry token)) (snd acc))
         else ((fst acc ++ [VStr token])%list, snd acc)).
Proof.
  unfold classify, Envelope.is_keyword, Envelope.keyword_entry. simpl.
  destruct (contains "=" token) eqn:E; [|reflexivity].
  rewrite (split1_contains _ _ E), replace_normalize. reflexivity.
Qed.

Lemma classify_all_tokens (tokens : list string) (acc : list value * kwargs) :
  classify_all (map VStr tokens) acc
  = inr ((fst acc ++ map VStr (filter Envelope.is_positional tokens))%list,
         Envelope.insert_all
           (map Envelope.keyword_entry (filter Envelope.is_keyword tokens))
           (snd acc)).
Proof.
  revert acc. induction tokens as [|t ts IH]; intros [pos kw]; simpl.
  - rewrite app_nil_r. reflexivity.
  - rewrite classify_token, IH.
    unfold Envelope.is_positional, Envelope.is_keyword.
    destruct (contains "=" t); simpl.
    + reflexivity.
    + rewrite <- app_assoc. reflexivity.
Qed.

Lemma filter_partition_length {A : Type} (p : A -> bool) (l : list A) :
  (length (filter (fun x => negb (p x)) l) + length (filter p l))%nat
  = length l.
Proof.
  induction l as [|a l IH]; simpl; [reflexivity|].
  destruct (p a); simpl; lia.
Qed.

(** C5.  For every list of string tokens the parameter loop classifies each
    token exactly once.  The positional arguments are the tokens without
    [=], in their order.  Every token with [=] puts exactly one entry into
    the keyword dict: the key is the text before the first [=] with every
    [-] rewritten to [_], the value is all the text after the first [=].
    The two classes add up to the tokens, and a key of the dict holds the
    value of the last token that was inserted under it. *)
Theorem parse_params_classifies (tokens : list string) :
  parse_params (VList (map VStr tokens))
  = inr (map VStr (filter Envelope.is_positional tokens),
         Envelope.insert_all
           (map Envelope.keyword_entry (filter Envelope.is_keyword tokens)) [])
  /\ (length (filter Envelope.is_positional tokens)
      + length (map Envelope.keyword_entry
                  (filter Envelope.is_keyword tokens)))%nat
     = length tokens
  /\ forall key,
       lookup key
         (Envelope.insert_all
            (map Envelope.keyword_entry (filter Envelope.is_keyword tokens)) [])
       = lookup key
           (rev (map Envelope.keyword_entry
                   (filter Envelope.is_keyword tokens))).
Proof.
  split; [|split].
  - unfold parse_params. simpl. apply classify_all_tokens.
  - rewrite length_map. apply filter_partition_length.
  - intros key. rewrite lookup_insert_all.
    destruct (lookup key _); reflexivity.
Qed.

(** The example of the specification. *)
Example parse_params_example :
  parse_params (VList [VStr "x"; VStr "y=5=6"; VStr "z"])
  = inr ([VStr "x"; VStr "z"], [("y", "5=6")]).
Proof. reflexivity. Qed.

Example parse_params_pixel_x :
  parse_params (VList [VStr "pixel-x=1"]) = inr ([], [("pixel_x", "1")]).
Proof. reflexivity. Qed.

(** Two tokens whose keys meet after normalization share one entry. *)
Example parse_params_same_key :
  parse_params (VList [VStr "a-b=1"; VStr "a_b=2"]) = inr ([], [("a_b", "2")]).
Proof. reflexivity. Qed.

(** When the normalized keys differ, the dict holds one entry for each
    keyword token, in the order of the tokens. *)
Lemma parse_params_distinct_keys (tokens : list string) :
  NoDup (map fst (map Envelope.keyword_entry
                    (filter Envelope.is_keyword tokens))) ->
  parse_params (VList (map VStr tokens))
  = inr (map VStr (filter Envelope.is_positional tokens),
         map Envelope.keyword_entry (filter Envelope.is_keyword tokens)).
Proof.
  intros Hnd. unfold parse_params. simpl.
  rewrite classify_all_tokens. simpl.
  rewrite insert_all_distinct; [reflexivity | exact Hnd].
Qed.

(** ** Dispatch *)

Lemma in_COMMANDS_registered (name : string) :
  In name COMMANDS -> in_COMMANDS (VStr name) = inr (Some name).
Proof.
  intros H. unfold in_COMMANDS.
  replace (existsb (String.eqb name) COMMANDS) with true; [reflexivity|].
  symmetry. apply existsb_exists. exists name. split; [exact H|].
  apply String.eqb_refl.
Qed.

Lemma in_COMMANDS_unregistered (name : string) :
  ~ In name COMMANDS -> in_COMMANDS (VStr name) = inr None.
Proof.
  intros H. unfold in_COMMANDS.
  destruct (existsb (String.eqb name) COMMANDS) eqn:E; [|reflexivity].
  apply existsb_exists in E. destruct E as [n [Hin Heq]].
  apply String.eqb_eq in Heq. subst n. contradiction.
Qed.

Section Dispatch.

Variable env : Env.
Variable client : handle.

(** When the device takes the write, the branch ends with status success
    after the encoder call and that one write. *)
Lemma dispatch_registered_writes_once
    (name : string) (params : value) (args : list value) (kw : kwargs)
    (data : bytes) (s : state) :
  In name COMMANDS ->
  parse_params params = inr (args, kw) ->
  encoder env name args kw = inr data ->
  write_script env (n_write s) = None ->
  exists s',
    dispatch env client (VStr name) params s
    = Done [("status", "success"); ("command", name)] s'
    /\ trace s'
       = (trace s
          ++ [EvEncode name args kw (inr data);
              EvWrite client "0000fa02-0000-1000-8000-00805f9b34fb" data None])%list
    /\ n_write s' = S (n_write s).
Proof.
  intros Hreg Hparse Henc Hwrite.
  unfold dispatch, bind, lift.
  rewrite (in_COMMANDS_registered _ Hreg). simpl.
  rewrite Hparse. simpl.
  unfold call_encoder, lift. rewrite Henc. simpl.
  unfold write_gatt_char. simpl. rewrite Hwrite. simpl.
  eexists. split; [reflexivity|]. simpl.
  rewrite <- app_assoc. split; reflexivity.
Qed.

(** When the device refuses the write, the exception leaves the branch
    after that one write. *)
Lemma dispatch_write_raises
    (name : string) (params : value) (args : list value) (kw : kwargs)
    (data : bytes) (e : exn) (s : state) :
  In name COMMANDS ->
  parse_params params = inr (args, kw) ->
  encoder env name args kw = inr data ->
  write_script env (n_write s) = Some e ->
  dispatch env client (VStr name) params s
  = Raised e
      (count_write
         (log (EvWrite client WRITE_UUID data (Some e))
            (log (EvEncode name args kw (inr data)) s))).
Proof.
  intros Hreg Hparse Henc Hwrite.
  unfold dispatch, bind, lift.
  rewrite (in_COMMANDS_registered _ Hreg). simpl.
  rewrite Hparse. simpl.
  unfold call_encoder, lift. rewrite Henc. simpl.
  unfold write_gatt_char. simpl. rewrite Hwrite. reflexivity.
Qed.

Lemma in_COMMANDS_not_registered (v : value) :
  ~ registered v ->
  in_COMMANDS v = if hashable v then inr None else inl (unhashable v).
Proof.
  intros H. destruct v; try reflexivity.
  simpl. apply in_COMMANDS_unregistered.
  intros Hin. apply H. exists s. split; [reflexivity | exact Hin].
Qed.

(** C6, amended.  For every inbound object whose command name is not in
    the table, with the field missing or of any type, handling the message
    changes nothing in the world, so no encoder is called and no device
    write is made, and the result is an error.  The message of the error
    is "Unknown command" when the name is missing, null, a boolean, a
    number or a string; when the name is a list or a dict, it is the
    description of the exception the membership test raises. *)
Theorem unregistered_command_is_error
    (fields : list (string * value)) (s : state) :
  ~ registered (command_of fields) ->
  process_message env client (inr (VDict fields)) s
  = Done [("status", "error");
          ("message",
           if hashable (command_of fields) then "Unknown command"
           else ("unhashable type: '" ++ type_name (command_of fields)
                   ++ "'")%string)]
      s.
Proof.
  intros H.
  unfold process_message, try_except, bind, lift, dispatch. simpl.
  fold (command_of fields). fold (params_of fields).
  unfold bind, lift. rewrite (in_COMMANDS_not_registered _ H).
  destruct (hashable (command_of fields)); reflexivity.
Qed.

(** C7.  For a registered command whose encoder raises, whatever the
    exception, the result of handling the message is status error with the
    description of the exception; the only call made is the call of the
    encoder, so no device write occurs; and the session loop that received
    the message sends this response and goes on with its next pass. *)
Theorem encoder_failure_is_error
    (fields : list (string * value)) (name : string) (args : list value)
    (kw : kwargs) (e : exn) (fuel : nat) (s : state) :
  recv_script env (n_recv s) = Message (inr (VDict fields)) ->
  command_of fields = VStr name ->
  In name COMMANDS ->
  parse_params (params_of fields) = inr (args, kw) ->
  encoder env name args kw = inl e ->
  process_message env client (inr (VDict fields)) s
  = Done [("status", "error"); ("message", str e)]
      (log (EvEncode name args kw (inl e)) s)
  /\ session_loop env (S fuel) client s
     = (ws_send env [("status", "error"); ("message", str e)] ;;
        session_loop env fuel client)
         (log (EvEncode name args kw (inl e))
            (count_recv (log (EvRecv (Message (inr (VDict fields)))) s))).
Proof.
  intros Hrecv Hname Hreg Hparse Henc.
  assert (Hp : forall s0,
    process_message env client (inr (VDict fields)) s0
    = Done (error (str e)) (log (EvEncode name args kw (inl e)) s0)).
  { intros s0.
    unfold process_message, try_except, bind, lift, dispatch. simpl.
    fold (command_of fields). fold (params_of fields).
    rewrite Hname. unfold bind, lift.
    rewrite (in_COMMANDS_registered _ Hreg). simpl.
    rewrite Hparse. simpl.
    unfold call_encoder, lift. rewrite Henc. reflexivity. }
  split; [apply Hp|].
  simpl. unfold bind at 1. unfold ws_recv. rewrite Hrecv.
  unfold bind at 1. rewrite Hp. reflexivity.
Qed.

(** C4, amended.  For a registered command whose arguments the encoder
    accepts, dispatch calls the encoder and then makes exactly one device
    write, to the characteristic 0000fa02-0000-1000-8000-00805f9b34fb, with
    exactly the bytes the encoder returned.  When the write returns, the
    result is status success with the command name.  When the write
    raises, there is no success result: the exception leaves the dispatch
    after that one write, and the response to the message is status error
    with the description of the exception. *)
Theorem dispatch_registered_one_write
    (fields : list (string * value)) (name : string) (args : list value)
    (kw : kwargs) (data : bytes) (s : state) :
  command_of fields = VStr name ->
  In name COMMANDS ->
  parse_params (params_of fields) = inr (args, kw) ->
  encoder env name args kw = inr data ->
  exists s',
    trace s'
    = trace s
        ++ [EvEncode name args kw (inr data);
            EvWrite client "0000fa02-0000-1000-8000-00805f9b34fb" data
              (write_script env (n_write s))]
    /\ n_write s' = S (n_write s)
    /\ dispatch env client (command_of fields) (params_of fields) s
       = match write_script env (n_write s) with
         | None => Done [("status", "success"); ("command", name)] s'
         | Some e => Raised e s'
         end
    /\ process_message env client (inr (VDict fields)) s
       = Done
           match write_script env (n_write s) with
           | None => [("status", "success"); ("command", name)]
           | Some e => [("status", "error"); ("message", str e)]
           end
           s'.
Proof.
  intros Hname Hreg Hparse Henc.
  exists (count_write
            (log (EvWrite client WRITE_UUID data (write_script env (n_write s)))
               (log (EvEncode name args kw (inr data)) s))).
  split; [simpl; rewrite <- app_assoc; reflexivity|].
  split; [reflexivity|].
  assert (Hd : dispatch env client (command_of fields) (params_of fields) s
               = match write_script env (n_write s) with
                 | None =>
                     Done (success name)
                       (count_write
                          (log (EvWrite client WRITE_UUID data None)
                             (log (EvEncode name args kw (inr data)) s)))
                 | Some e =>
                     Raised e
                       (count_write
                          (log (EvWrite client WRITE_UUID data (Some e))
                             (log (EvEncode name args kw (inr data)) s)))
                 end).
  { rewrite Hname. unfold dispatch, bind, lift.
    rewrite (in_COMMANDS_registered _ Hreg). simpl.
    rewrite Hparse. simpl.
    unfold call_encoder, lift. rewrite Henc. simpl.
    unfold write_gatt_char. simpl.
    destruct (write_script env (n_write s)); reflexivity. }
  split.
  - rewrite Hd. destruct (write_script env (n_write s)); reflexivity.
  - unfold process_message, try_except.
    cbv beta iota delta [bind lift ret get].
    fold (command_of fields). fold (params_of fields).
    rewrite Hd. destruct (write_script env (n_write s)); reflexivity.
Qed.

End Dispatch.

(** *** Concrete runs of the dispatch *)

Lemma dispatch_registered_one_write_witness :
  command_of [("command", VStr "set_brightness"); ("params", VList [VStr "80"])]
  = VStr "set_brightness"
  /\ In "set_brightness"%string COMMANDS
  /\ parse_params
       (params_of
          [("command", VStr "set_brightness"); ("params", VList [VStr "80"])])
     = inr ([VStr "80"], [])
  /\ encoder quiet "set_brightness" [VStr "80"] [] = inr [Byte.x01]
  /\ exists s',
       trace s'
       = trace initial
           ++ [EvEncode "set_brightness" [VStr "80"] [] (inr [Byte.x01]);
               EvWrite 0 "0000fa02-0000-1000-8000-00805f9b34fb" [Byte.x01]
                 (write_script quiet (n_write initial))]
       /\ n_write s' = S (n_write initial)
       /\ dispatch quiet 0
            (command_of
               [("command", VStr "set_brightness");
                ("params", VList [VStr "80"])])
            (params_of
               [("command", VStr "set_brightness");
                ("params", VList [VStr "80"])])
            initial
          = match write_script quiet (n_write initial) with
            | None =>
                Done [("status", "success"); ("command", "set_brightness")] s'
            | Some e => Raised e s'
            end
       /\ process_message quiet 0
            (inr (VDict [("command", VStr "set_brightness");
                         ("params", VList [VStr "80"])]))
            initial
          = Done
              match write_script quiet (n_write initial) with
              | None => [("status", "success"); ("command", "set_brightness")]
              | Some e => [("status", "error"); ("message", str e)]
              end
              s'.
Proof.
  assert (Hin : In "set_brightness"%string COMMANDS) by (simpl; tauto).
  repeat (split; [first [reflexivity | exact Hin]|]).
  apply (dispatch_registered_one_write quiet 0
           [("command", VStr "set_brightness"); ("params", VList [VStr "80"])]
           "set_brightness" [VStr "80"] [] [Byte.x01] initial);
    first [reflexivity | exact Hin].
Defined.

(** C4, as stated, fails when the device refuses the write: the command is
    registered and the encoder accepts its arguments, the one write is
    made, yet the dispatch raises and the response is status error, not
    status success. *)
Lemma refused_write_counterexample :
  In "clear"%string COMMANDS
  /\ parse_params (VList []) = inr ([], [])
  /\ encoder refusing_writes "clear" [] [] = inr [Byte.x01]
  /\ dispatch refusing_writes 0 (VStr "clear") (VList []) initial
     = Raised (BleakError "not connected")
         {| trace :=
              [EvEncode "clear" [] [] (inr [Byte.x01]);
               EvWrite 0 "0000fa02-0000-1000-8000-00805f9b34fb" [Byte.x01]
                 (Some (BleakError "not connected"))];
            n_connect := 0; n_recv := 0; n_write := 1; n_send := 0;
            n_disconnect := 0 |}
  /\ process_message refusing_writes 0 (inr (VDict [("command", VStr "clear")]))
       initial
     = Done [("status", "error"); ("message", "not connected")]
         {| trace :=
              [EvEncode "clear" [] [] (inr [Byte.x01]);
               EvWrite 0 "0000fa02-0000-1000-8000-00805f9b34fb" [Byte.x01]
                 (Some (BleakError "not connected"))];
            n_connect := 0; n_recv := 0; n_write := 1; n_send := 0;
            n_disconnect := 0 |}.
Proof.
  split; [simpl; tauto|]. split; [reflexivity|]. split; [reflexivity|].
  split; vm_compute; reflexivity.
Qed.

Lemma not_registered_bogus :
  ~ registered (command_of [("command", VStr "bogus"); ("params", VList [])]).
Proof.
  intros [name [Heq Hin]]. injection Heq as <-.
  simpl in Hin. intuition discriminate.
Qed.

Lemma unregistered_command_is_error_witness :
  ~ registered (command_of [("command", VStr "bogus"); ("params", VList [])])
  /\ process_message quiet 0%nat
       (inr (VDict [("command", VStr "bogus"); ("params", VList [])])) initial
     = Done [("status", "error"); ("message", "Unknown command")] initial.
Proof.
  split; [exact not_registered_bogus|].
  apply (unregistered_command_is_error quiet 0%nat
           [("command", VStr "bogus"); ("params", VList [])] initial).
  exact not_registered_bogus.
Defined.

(** C6, as stated, fails when the [command] field is a list: the name is
    not registered, yet the result is not the "Unknown command" error. *)
Lemma unknown_command_list_name_counterexample :
  ~ registered (command_of [("command", VList [])])
  /\ process_message quiet 0%nat (inr (VDict [("command", VList [])])) initial
     = Done [("status", "error"); ("message", "unhashable type: 'list'")]
         initial
  /\ process_message quiet 0%nat (inr (VDict [("command", VList [])])) initial
     <> Done [("status", "error"); ("message", "Unknown command")] initial.
Proof.
  split; [|split].
  - intros [name [Heq _]]. discriminate Heq.
  - reflexivity.
  - discriminate.
Qed.

Lemma encoder_failure_is_error_witness :
  recv_script refusing (n_recv initial) = Message (inr (VDict brightness_x))
  /\ command_of brightness_x = VStr "set_brightness"
  /\ In "set_brightness" COMMANDS
  /\ parse_params (params_of brightness_x) = inr ([VStr "x"], [])
  /\ encoder refusing "set_brightness" [VStr "x"] [] = inl bad_value
  /\ process_message refusing 0%nat (inr (VDict brightness_x)) initial
     = Done [("status", "error"); ("message", str bad_value)]
         (log (EvEncode "set_brightness" [VStr "x"] [] (inl bad_value)) initial)
  /\ session_loop refusing 3 0%nat initial
     = (ws_send refusing [("status", "error"); ("message", str bad_value)] ;;
        session_loop refusing 2 0%nat)
         (log (EvEncode "set_brightness" [VStr "x"] [] (inl bad_value))
            (count_recv
               (log (EvRecv (Message (inr (VDict brightness_x)))) initial))).
Proof.
  assert (Hin : In "set_brightness" COMMANDS) by (simpl; tauto).
  repeat (split; [first [reflexivity | exact Hin]|]).
  apply (encoder_failure_is_error refusing 0%nat brightness_x "set_brightness"
           [VStr "x"] [] bad_value 2 initial);
    first [reflexivity | exact Hin].
Defined.

(** The refused request end to end: one error response, no write, and the
    loop goes on to the receive that finds the connection closed. *)
Example refused_request_run :
  handle_websocket refusing 4 "/" "AA:BB" initial
  = Done tt
      {| trace :=
           [EvConnect "AA:BB" 0 (Returned true);
            EvPrint "[INFO] Connected to the device";
            EvRecv (Message (inr (VDict brightness_x)));
            EvEncode "set_brightness" [VStr "x"] [] (inl bad_value);
            EvSend [("status", "error"); ("message", str bad_value)] None;
            EvRecv (RecvRaised closed);
            EvPrint "[INFO] Websocket connection closed";
            EvDisconnect 0 None];
         n_connect := 1; n_recv := 2; n_write := 0; n_send := 1;
         n_disconnect := 1 |}.
Proof. reflexivity. Qed.

(** ** Connection acquisition *)

Section Acquisition.

Variable env : Env.
Variable address : string.
Variable max_retries : Z.

(** One pass of the loop, by the answer of the connect call. *)
Lemma connect_attempt_cases (retries : Z) (s : state) :
  connect_attempt env address max_retries retries s
  = let h := n_connect s in
    let s1 :=
      count_connect (log (EvConnect address h (connect_script env h)) s) in
    match connect_script env h with
    | Returned true =>
        Done (inl h) (log (EvPrint "[INFO] Connected to the device") s1)
    | Returned false => Done (inr retries) s1
    | ConnectRaised e =>
        if is_BleakError e
        then Done (inr (retries + 1)%Z)
               (log (EvSleep 5)
                  (log (EvPrint (connection_failed retries max_retries e)) s1))
        else Raised e s1
    end.
Proof.
  unfold connect_attempt, try_except, bind, ble_connect. simpl.
  destruct (connect_script env (n_connect s)) as [[|]|[m|m|c m]]; reflexivity.
Qed.

Lemma connect_loop_exhausted (fuel : nat) (retries : Z) (s : state) :
  (max_retries <= retries)%Z ->
  connect_loop env fuel address max_retries retries s
  = Done None (log gave_up s).
Proof.
  intros H. destruct fuel; simpl;
    (replace (retries <? max_retries)%Z with false
       by (symmetry; apply Z.ltb_ge; exact H));
    reflexivity.
Qed.

Lemma connect_loop_step (fuel : nat) (retries : Z) (s : state) :
  (retries < max_retries)%Z ->
  connect_loop env (S fuel) address max_retries retries s
  = match connect_attempt env address max_retries retries s with
    | Done (inl client) s' => Done (Some client) s'
    | Done (inr retries') s' =>
        connect_loop env fuel address max_retries retries' s'
    | Raised e s' => Raised e s'
    | Pending s' => Pending s'
    end.
Proof.
  intros H. simpl.
  replace (retries <? max_retries)%Z with true
    by (symmetry; apply Z.ltb_lt; exact H).
  unfold bind.
  destruct (connect_attempt env address max_retries retries s) as [[c|r] s'|e s'|s'];
    reflexivity.
Qed.

Lemma connect_loop_no_fuel (retries : Z) (s : state) :
  (retries < max_retries)%Z ->
  connect_loop env 0 address max_retries retries s = Pending s.
Proof.
  intros H. simpl.
  replace (retries <? max_retries)%Z with true
    by (symmetry; apply Z.ltb_lt; exact H).
  reflexivity.
Qed.

End Acquisition.

(** ** Counting events *)

Lemma count_app (p : event -> bool) (t1 t2 : list event) :
  count p (t1 ++ t2) = count p t1 + count p t2.
Proof. unfold count. rewrite filter_app, length_app. reflexivity. Qed.

Lemma failure_is_logged (retries max_retries : Z) (e : exn) :
  is_failure_log (EvPrint (connection_failed retries max_retries e)) = true.
Proof. reflexivity. Qed.

(** ** A connect call that returns unconnected *)

Lemma connect_loop_unconnected (address : string) (max_retries : Z)
    (fuel : nat) :
  forall (retries : Z) (s : state),
    (retries < max_retries)%Z ->
    exists s',
      connect_loop unconnected fuel address max_retries retries s = Pending s'
      /\ trace s'
         = trace s
             ++ map (fun h => EvConnect address h (Returned false))
                  (seq (n_connect s) fuel)
      /\ n_connect s' = n_connect s + fuel.
Proof.
  induction fuel as [|fuel IH]; intros retries s Hlt.
  - exists s. rewrite connect_loop_no_fuel by exact Hlt.
    simpl. rewrite app_nil_r, Nat.add_0_r. repeat split.
  - rewrite connect_loop_step by exact Hlt.
    rewrite connect_attempt_cases. simpl.
    destruct (IH retries
                (count_connect
                   (log (EvConnect address (n_connect s) (Returned false)) s))
                Hlt) as [s' [Hrun [Htr Hn]]].
    exists s'. split; [exact Hrun|]. split.
    + rewrite Htr. simpl. rewrite <- app_assoc. reflexivity.
    + rewrite Hn. simpl. lia.
Qed.

Lemma count_unconnected (address : string) (fuel : nat) :
  forall n,
    count is_connect
      (map (fun h => EvConnect address h (Returned false)) (seq n fuel))
    = fuel
    /\ count is_retry_delay
         (map (fun h => EvConnect address h (Returned false)) (seq n fuel))
       = 0.
Proof.
  unfold count. induction fuel as [|fuel IH]; intros n; simpl.
  - split; reflexivity.
  - destruct (IH (S n)) as [H1 H2]. rewrite H1, H2. split; reflexivity.
Qed.

(** C2, the failing run.  When every connect call returns without an error
    and leaves the client unconnected, acquisition with the default of 5
    retries is still running after any number of passes: after [fuel]
    passes it has made [fuel] connect calls, with no wait between them, and
    has not returned. *)
Theorem connect_to_device_unconnected_spins (fuel : nat) (address : string) :
  exists s,
    connect_to_device unconnected fuel address 5%Z initial = Pending s
    /\ trace s
       = map (fun h => EvConnect address h (Returned false)) (seq 0 fuel)
    /\ count is_connect (trace s) = fuel
    /\ count is_retry_delay (trace s) = 0.
Proof.
  destruct (connect_loop_unconnected address 5%Z fuel 0%Z initial)
    as [s [Hrun [Htr _]]]; [lia|].
  exists s. split; [exact Hrun|]. simpl in Htr.
  split; [exact Htr|]. rewrite Htr. apply count_unconnected.
Qed.

(** Seven passes: seven attempts where five are allowed. *)
Example unconnected_seven_attempts :
  exists s,
    connect_to_device unconnected 7 "AA:BB" 5%Z initial = Pending s
    /\ n_connect s = 7.
Proof. eexists. split; reflexivity. Qed.

(** ** The retry budget *)

Section Budget.

Variable env : Env.
Variable address : string.
Variable max_retries : Z.

(** When no connect call returns unconnected, acquisition comes to an end
    within [max_retries] passes: it makes at most [max_retries] connect
    calls, it waits 5 seconds after each failed one, and it gives up with
    no client exactly when [max_retries] calls in a row failed with a
    [BleakError]. *)
Lemma connect_loop_bounded :
  (forall h, connect_script env h <> Returned false) ->
  forall (n : nat) (retries : Z) (fuel : nat) (s : state),
    Z.to_nat (max_retries - retries) = n ->
    n <= fuel ->
    exists t,
      trace (final_state (connect_loop env fuel address max_retries retries s))
      = trace s ++ t
      /\ count is_connect t <= n
      /\ match connect_loop env fuel address max_retries retries s with
         | Done (Some h) _ =>
             connect_script env h = Returned true
             /\ count is_retry_delay t + 1 = count is_connect t
         | Done None _ =>
             count is_connect t = n /\ count is_retry_delay t = n
         | Raised e _ =>
             is_BleakError e = false
             /\ count is_retry_delay t + 1 = count is_connect t
         | Pending _ => False
         end.
Proof.
  intros Hrel. induction n as [|n IH]; intros retries fuel s Hn Hfuel.
  - rewrite connect_loop_exhausted by lia.
    exists [gave_up]. unfold count. simpl. repeat split; lia.
  - destruct fuel as [|fuel]; [lia|].
    rewrite connect_loop_step by lia.
    rewrite connect_attempt_cases. cbv zeta.
    destruct (connect_script env (n_connect s)) as [[|]|e] eqn:E.
    + eexists. simpl. split; [rewrite <- app_assoc; reflexivity|].
      simpl. split; [unfold count; simpl; lia|].
      split; [exact E | reflexivity].
    + exfalso. exact (Hrel _ E).
    + destruct (is_BleakError e) eqn:Eb.
      * destruct (IH (retries + 1)%Z fuel
                    (log (EvSleep 5)
                       (log (EvPrint (connection_failed retries max_retries e))
                          (count_connect
                             (log (EvConnect address (n_connect s)
                                     (ConnectRaised e)) s)))))
          as [t [Htr [Hc Hres]]]; [lia | lia |].
        exists ([EvConnect address (n_connect s) (ConnectRaised e);
                 EvPrint (connection_failed retries max_retries e);
                 EvSleep 5] ++ t).
        split; [rewrite Htr; simpl; repeat rewrite <- app_assoc; reflexivity|].
        rewrite !count_app.
        change (count is_connect
                  [EvConnect address (n_connect s) (ConnectRaised e);
                   EvPrint (connection_failed retries max_retries e);
                   EvSleep 5]) with 1.
        change (count is_retry_delay
                  [EvConnect address (n_connect s) (ConnectRaised e);
                   EvPrint (connection_failed retries max_retries e);
                   EvSleep 5]) with 1.
        split; [lia|].
        destruct (connect_loop env fuel address max_retries (retries + 1) _)
          as [[h|] s'|e' s'|s']; simpl in *; try tauto;
          destruct Hres as [H1 H2]; split; try assumption; lia.
      * eexists. simpl. split; [reflexivity|].
        split; [unfold count; simpl; lia|].
        split; [exact Eb | reflexivity].
Qed.


End Budget.



(** The run of the witness: five failed calls, each logged and followed by
    the wait, then the line that gives up and no client. *)
Example out_of_reach_run :
  connect_to_device out_of_reach 6 "AA:BB" 5%Z initial
  = Done None
      {| trace :=
           [EvConnect "AA:BB" 0 (ConnectRaised (BleakError "device not found"));
            EvPrint "[ERROR] Connection failed (1/5): device not found";
            EvSleep 5;
            EvConnect "AA:BB" 1 (ConnectRaised (BleakError "device not found"));
            EvPrint "[ERROR] Connection failed (2/5): device not found";
            EvSleep 5;
            EvConnect "AA:BB" 2 (ConnectRaised (BleakError "device not found"));
            EvPrint "[ERROR] Connection failed (3/5): device not found";
            EvSleep 5;
            EvConnect "AA:BB" 3 (ConnectRaised (BleakError "device not found"));
            EvPrint "[ERROR] Connection failed (4/5): device not found";
            EvSleep 5;
            EvConnect "AA:BB" 4 (ConnectRaised (BleakError "device not found"));
            EvPrint "[ERROR] Connection failed (5/5): device not found";
            EvSleep 5;
            gave_up];
         n_connect := 5; n_recv := 0; n_write := 0; n_send := 0;
         n_disconnect := 0 |}.
Proof. reflexivity. Qed.


(** ** Kinds of events *)

Section Emits.

Context {A : Type}.
Variable kind : event -> bool.

Lemma emits_ret (a : A) : emits kind (ret a).
Proof. intros s. exists []. simpl. rewrite app_nil_r. split; constructor. Qed.

Lemma emits_raise (e : exn) : emits kind (raise e : M A).
Proof. intros s. exists []. simpl. rewrite app_nil_r. split; constructor. Qed.

Lemma emits_pending : emits kind (fun s => Pending s : outcome A).
Proof. intros s. exists []. simpl. rewrite app_nil_r. split; constructor. Qed.

Lemma emits_lift (r : result A) : emits kind (lift r).
Proof. destruct r; [apply emits_raise | apply emits_ret]. Qed.

Lemma emits_try_except (body : M A) (handler : exn -> option (M A)) :
  emits kind body ->
  (forall e h, handler e = Some h -> emits kind h) ->
  emits kind (try_except body handler).
Proof.
  intros Hb Hh s. unfold try_except.
  destruct (Hb s) as [t1 [H1 F1]].
  destruct (body s) as [a s'|e s'|s']; try (exists t1; split; assumption).
  destruct (handler e) as [h|] eqn:E; [|exists t1; split; assumption].
  destruct (Hh e h E s') as [t2 [H2 F2]].
  exists (t1 ++ t2). split.
  - rewrite H2. simpl in H1. rewrite H1. rewrite app_assoc. reflexivity.
  - apply Forall_app. split; assumption.
Qed.

End Emits.

Lemma emits_bind {A B : Type} (kind : event -> bool) (m : M A) (k : A -> M B) :
  emits kind m -> (forall a, emits kind (k a)) -> emits kind (bind m k).
Proof.
  intros Hm Hk s. unfold bind.
  destruct (Hm s) as [t1 [H1 F1]].
  destruct (m s) as [a s'|e s'|s']; try (exists t1; split; assumption).
  destruct (Hk a s') as [t2 [H2 F2]].
  exists (t1 ++ t2). split.
  - rewrite H2. simpl in H1. rewrite H1. rewrite app_assoc. reflexivity.
  - apply Forall_app. split; assumption.
Qed.

Section SessionEvents.

Variable env : Env.

Lemma emits_print (kind : event -> bool) (line : string) :
  kind (EvPrint line) = true -> emits kind (print line).
Proof.
  intros Hk s. exists [EvPrint line]. simpl. split; [reflexivity|].
  constructor; auto.
Qed.

Lemma emits_ws_recv : emits session_event (ws_recv env).
Proof.
  intros s. exists [EvRecv (recv_script env (n_recv s))].
  unfold ws_recv. destruct (recv_script env (n_recv s));
    simpl; (split; [reflexivity | constructor; auto]).
Qed.

Lemma emits_call_encoder (name : string) (args : list value) (kw : kwargs) :
  emits session_event (call_encoder env name args kw).
Proof.
  intros s. exists [EvEncode name args kw (encoder env name args kw)].
  unfold call_encoder. destruct (encoder env name args kw);
    simpl; (split; [reflexivity | constructor; auto]).
Qed.

Lemma emits_write_gatt_char (h : handle) (uuid : string) (data : bytes) :
  emits session_event (write_gatt_char env h uuid data).
Proof.
  intros s. unfold write_gatt_char.
  exists [EvWrite h uuid data (write_script env (n_write s))].
  destruct (write_script env (n_write s));
    simpl; (split; [reflexivity | constructor; auto]).
Qed.

Lemma emits_ws_send (resp : response) : emits session_event (ws_send env resp).
Proof.
  intros s. unfold ws_send.
  exists [EvSend resp (send_script env (n_send s))].
  destruct (send_script env (n_send s));
    simpl; (split; [reflexivity | constructor; auto]).
Qed.

Lemma emits_dispatch (client : handle) (command_name params : value) :
  emits session_event (dispatch env client command_name params).
Proof.
  unfold dispatch. apply emits_bind; [apply emits_lift|].
  intros [name|]; [|apply emits_ret].
  apply emits_bind; [apply emits_lift|]. intros args.
  apply emits_bind; [apply emits_call_encoder|]. intros data.
  apply emits_bind; [apply emits_write_gatt_char|]. intros _.
  apply emits_ret.
Qed.

Lemma emits_process_message (client : handle) (message : result value) :
  emits session_event (process_message env client message).
Proof.
  unfold process_message. apply emits_try_except.
  - apply emits_bind; [apply emits_lift|]. intros command_data.
    apply emits_bind; [apply emits_lift|]. intros command_name.
    apply emits_bind; [apply emits_lift|]. intros params.
    apply emits_dispatch.
  - intros e h Heq. injection Heq as <-. apply emits_ret.
Qed.

Lemma emits_session_loop (fuel : nat) (client : handle) :
  emits session_event (session_loop env fuel client).
Proof.
  induction fuel as [|fuel IH]; simpl.
  - apply emits_pending.
  - apply emits_bind; [apply emits_ws_recv|]. intros message.
    apply emits_bind; [apply emits_process_message|]. intros resp.
    apply emits_bind; [apply emits_ws_send|]. intros _.
    exact IH.
Qed.

End SessionEvents.

(** ** Release of the device session *)

Lemma acquired_app (t1 t2 : list event) :
  acquired (t1 ++ t2) = acquired t1 ++ acquired t2.
Proof. apply flat_map_app. Qed.

Lemma disconnects_app (t1 t2 : list event) :
  disconnects (t1 ++ t2) = disconnects t1 ++ disconnects t2.
Proof. apply flat_map_app. Qed.

Lemma released_app (t1 t2 : list event) :
  released (t1 ++ t2) = released t1 ++ released t2.
Proof. unfold released. rewrite disconnects_app. apply map_app. Qed.

Lemma session_events_quiet (t : list event) :
  Forall (fun ev => session_event ev = true) t ->
  acquired t = [] /\ disconnects t = [].
Proof.
  induction 1 as [|ev t Hev _ [IHa IHd]]; [split; reflexivity|].
  unfold acquired, disconnects in *. simpl. rewrite IHa, IHd.
  destruct ev; try discriminate Hev; split; reflexivity.
Qed.

Lemma last_error_snoc (ds : list (handle * option exn)) (h : handle)
    (r : option exn) :
  last_error (ds ++ [(h, r)])
  = match r with Some e => Some e | None => last_error ds end.
Proof. unfold last_error. rewrite fold_left_app. reflexivity. Qed.

Lemma releases_quiet {A : Type} (s : state) (o : outcome A) (t : list event) :
  trace (final_state o) = trace s ++ t ->
  acquired t = [] -> disconnects t = [] ->
  releases_all s o.
Proof.
  intros Ht Ha Hd. exists t. split; [exact Ht|].
  unfold released. rewrite Ha, Hd. split; [reflexivity|].
  intros e _ He. discriminate He.
Qed.

Lemma emits_releases {A : Type} (m : M A) (s : state) :
  emits session_event m -> releases_all s (m s).
Proof.
  intros Hm. destruct (Hm s) as [t [Ht Hf]].
  destruct (session_events_quiet t Hf) as [Ha Hd].
  exact (releases_quiet s (m s) t Ht Ha Hd).
Qed.

Section Release.

Variable env : Env.

(** The [finally] clause of both handlers, by what its body did. *)
Lemma try_finally_disconnect {A : Type} (body : M A) (c : handle) (s : state) :
  try_finally body (ble_disconnect env c) s
  = match body s with
    | Done a s' =>
        let r := disconnect_script env (n_disconnect s') in
        let s'' := count_disconnect (log (EvDisconnect c r) s') in
        match r with
        | None => Done a s''
        | Some e => Raised e s''
        end
    | Raised e0 s' =>
        let r := disconnect_script env (n_disconnect s') in
        let s'' := count_disconnect (log (EvDisconnect c r) s') in
        match r with
        | None => Raised e0 s''
        | Some e => Raised e s''
        end
    | Pending s' => Pending s'
    end.
Proof.
  unfold try_finally, bind, ble_disconnect.
  destruct (body s) as [a s'|e0 s'|s']; simpl;
    try destruct (disconnect_script env (n_disconnect s')); reflexivity.
Qed.

(** Acquisition disconnects nothing, and acquires the client it returns and
    no other. *)
Lemma connect_loop_acquires (address : string) (max_retries : Z) (fuel : nat) :
  forall (retries : Z) (s : state),
    exists t,
      trace (final_state (connect_loop env fuel address max_retries retries s))
      = trace s ++ t
      /\ disconnects t = []
      /\ acquired t
         = match connect_loop env fuel address max_retries retries s with
           | Done (Some h) _ => [h]
           | _ => []
           end.
Proof.
  induction fuel as [|fuel IH]; intros retries s.
  - destruct (Z.lt_ge_cases retries max_retries) as [Hlt|Hge].
    + rewrite connect_loop_no_fuel by exact Hlt.
      exists []. simpl. rewrite app_nil_r. repeat split.
    + rewrite connect_loop_exhausted by exact Hge.
      exists [gave_up]. repeat split.
  - destruct (Z.lt_ge_cases retries max_retries) as [Hlt|Hge].
    + rewrite connect_loop_step by exact Hlt.
      rewrite connect_attempt_cases. cbv zeta.
      destruct (connect_script env (n_connect s)) as [[|]|e] eqn:E.
      * eexists. simpl. split; [rewrite <- app_assoc; reflexivity|].
        split; reflexivity.
      * destruct (IH retries
                    (count_connect
                       (log (EvConnect address (n_connect s) (Returned false))
                          s)))
          as [t [Htr [Hd Ha]]].
        exists ([EvConnect address (n_connect s) (Returned false)] ++ t).
        split; [rewrite Htr; simpl; rewrite <- app_assoc; reflexivity|].
        rewrite disconnects_app, acquired_app, Hd, Ha. split; reflexivity.
      * destruct (is_BleakError e).
        -- destruct (IH (retries + 1)%Z
                       (log (EvSleep 5)
                          (log (EvPrint
                                  (connection_failed retries max_retries e))
                             (count_connect
                                (log (EvConnect address (n_connect s)
                                        (ConnectRaised e)) s)))))
             as [t [Htr [Hd Ha]]].
           exists ([EvConnect address (n_connect s) (ConnectRaised e);
                    EvPrint (connection_failed retries max_retries e);
                    EvSleep 5] ++ t).
           split; [rewrite Htr; simpl; repeat rewrite <- app_assoc;
                   reflexivity|].
           rewrite disconnects_app, acquired_app, Hd, Ha. split; reflexivity.
        -- eexists. simpl. split; [reflexivity|]. split; reflexivity.
    + rewrite connect_loop_exhausted by exact Hge.
      exists [gave_up]. repeat split.
Qed.

(** A body that releases what it acquires, run under the [finally] clause
    of a client acquired just before, makes a run that releases all. *)
Lemma try_finally_releases {A : Type} (body : M A) (c : handle)
    (s s1 : state) (t1 : list event) :
  trace s1 = trace s ++ t1 ->
  acquired t1 = [c] ->
  disconnects t1 = [] ->
  releases_all s1 (body s1) ->
  releases_all s (try_finally body (ble_disconnect env c) s1).
Proof.
  intros H1 Ha1 Hd1 [t2 [H2 [R2 E2]]].
  rewrite try_finally_disconnect.
  destruct (body s1) as [a s2|e0 s2|s2]; simpl in H2.
  - set (r := disconnect_script env (n_disconnect s2)).
    exists (t1 ++ t2 ++ [EvDisconnect c r]).
    assert (Htr : trace s2 ++ [EvDisconnect c r]
                  = trace s ++ t1 ++ t2 ++ [EvDisconnect c r]).
    { rewrite H2, H1. repeat rewrite <- app_assoc. reflexivity. }
    assert (Hrel : released (t1 ++ t2 ++ [EvDisconnect c r])
                   = rev (acquired (t1 ++ t2 ++ [EvDisconnect c r]))).
    { rewrite !released_app, !acquired_app. unfold released at 1.
      rewrite Hd1, Ha1, (R2 eq_refl). simpl. rewrite app_nil_r. reflexivity. }
    assert (Herr : last_error (disconnects (t1 ++ t2 ++ [EvDisconnect c r]))
                   = match r with
                     | Some e => Some e
                     | None => last_error (disconnects t2)
                     end).
    { rewrite !disconnects_app, Hd1. simpl. apply last_error_snoc. }
    cbv zeta. fold r. destruct r as [e'|]; simpl.
    + split; [exact Htr|]. split; [intros _; exact Hrel|].
      intros e _ He. rewrite Herr in He. injection He as <-.
      eexists. reflexivity.
    + split; [exact Htr|]. split; [intros _; exact Hrel|].
      intros e _ He. rewrite Herr in He.
      destruct (E2 e eq_refl He) as [s' Hs']. discriminate Hs'.
  - set (r := disconnect_script env (n_disconnect s2)).
    exists (t1 ++ t2 ++ [EvDisconnect c r]).
    assert (Htr : trace s2 ++ [EvDisconnect c r]
                  = trace s ++ t1 ++ t2 ++ [EvDisconnect c r]).
    { rewrite H2, H1. repeat rewrite <- app_assoc. reflexivity. }
    assert (Hrel : released (t1 ++ t2 ++ [EvDisconnect c r])
                   = rev (acquired (t1 ++ t2 ++ [EvDisconnect c r]))).
    { rewrite !released_app, !acquired_app. unfold released at 1.
      rewrite Hd1, Ha1, (R2 eq_refl). simpl. rewrite app_nil_r. reflexivity. }
    assert (Herr : last_error (disconnects (t1 ++ t2 ++ [EvDisconnect c r]))
                   = match r with
                     | Some e => Some e
                     | None => last_error (disconnects t2)
                     end).
    { rewrite !disconnects_app, Hd1. simpl. apply last_error_snoc. }
    cbv zeta. fold r. destruct r as [e'|]; simpl.
    + split; [exact Htr|]. split; [intros _; exact Hrel|].
      intros e _ He. rewrite Herr in He. injection He as <-.
      eexists. reflexivity.
    + split; [exact Htr|]. split; [intros _; exact Hrel|].
      intros e _ He. rewrite Herr in He.
      destruct (E2 e eq_refl He) as [s' Hs']. injection Hs' as <- _.
      eexists. reflexivity.
  - exists (t1 ++ t2). simpl.
    split; [rewrite H2, H1, app_assoc; reflexivity|].
    split; intros; discriminate.
Qed.

End Release.

Section Handlers.

Variable env : Env.
Variable path address : string.

Lemma handler_body_releases (fuel : nat) (c : handle) (s1 : state) :
  (forall s, releases_all s (handle_websocket env fuel path address s)) ->
  releases_all s1
    (try_except (session_loop env fuel c)
       (fun e =>
          match e with
          | ConnectionClosed _ =>
              Some (print "[INFO] Websocket connection closed")
          | BleakError _ =>
              Some (print "[ERROR] BLE connection lost, attempting to reconnect..." ;;
                    handle_websocket env fuel path address)
          | _ => None
          end) s1).
Proof.
  intros IH. unfold try_except.
  destruct (emits_session_loop env fuel c s1) as [t2 [H2 F2]].
  destruct (session_events_quiet t2 F2) as [Ha2 Hd2].
  destruct (session_loop env fuel c s1) as [a s2|e s2|s2].
  { exact (releases_quiet s1 (Done a s2) t2 H2 Ha2 Hd2). }
  2: { exact (releases_quiet s1 (Pending s2) t2 H2 Ha2 Hd2). }
  simpl in H2. destruct e as [m|m|cls m].
  - apply (releases_quiet _ _ (t2 ++ [EvPrint "[INFO] Websocket connection closed"])).
    + simpl. rewrite H2, app_assoc. reflexivity.
    + rewrite acquired_app, Ha2. reflexivity.
    + rewrite disconnects_app, Hd2. reflexivity.
  - unfold bind, print.
    set (s3 := log (EvPrint "[ERROR] BLE connection lost, attempting to reconnect...") s2).
    destruct (IH s3) as [t3 [H3 [R3 E3]]].
    exists (t2 ++ [EvPrint "[ERROR] BLE connection lost, attempting to reconnect..."] ++ t3).
    split.
    + rewrite H3. unfold s3. simpl. rewrite H2.
      repeat rewrite <- app_assoc. reflexivity.
    + rewrite !released_app, !acquired_app, !disconnects_app.
      unfold released at 1 2. rewrite Ha2, Hd2. simpl. split; assumption.
  - exact (releases_quiet s1 (Raised (PyError cls m) s2) t2 H2 Ha2 Hd2).
Qed.

Lemma handle_websocket_releases (fuel : nat) :
  forall s, releases_all s (handle_websocket env fuel path address s).
Proof.
  induction fuel as [|fuel IH]; intros s.
  - apply (releases_quiet _ _ []); try reflexivity.
    simpl. rewrite app_nil_r. reflexivity.
  - simpl. unfold bind at 1. unfold connect_to_device.
    destruct (connect_loop_acquires env address default_max_retries fuel 0%Z s)
      as [t1 [H1 [Hd1 Ha1]]].
    destruct (connect_loop env fuel address default_max_retries 0 s)
      as [[c|] s1|e s1|s1].
    + apply (try_finally_releases env _ c s s1 t1 H1 Ha1 Hd1).
      apply handler_body_releases. exact IH.
    + exact (releases_quiet s (Done tt s1) t1 H1 Ha1 Hd1).
    + exact (releases_quiet s (Raised e s1 : outcome unit) t1 H1 Ha1 Hd1).
    + exact (releases_quiet s (Pending s1 : outcome unit) t1 H1 Ha1 Hd1).
Qed.

Lemma execute_command_releases (fuel : nat) (command_name : string)
    (params : list string) (s : state) :
  releases_all s (execute_command env fuel command_name params address s).
Proof.
  unfold execute_command. unfold bind at 1. unfold connect_to_device.
  destruct (connect_loop_acquires env address default_max_retries fuel 0%Z s)
    as [t1 [H1 [Hd1 Ha1]]].
  destruct (connect_loop env fuel address default_max_retries 0 s)
    as [[c|] s1|e s1|s1].
  - apply (try_finally_releases env _ c s s1 t1 H1 Ha1 Hd1).
    apply emits_releases.
    apply emits_bind; [apply emits_lift|].
    intros [name|]; [|apply emits_print; reflexivity].
    apply emits_bind; [apply emits_lift|]. intros args.
    apply emits_bind; [apply emits_call_encoder|]. intros data.
    apply emits_bind; [apply emits_write_gatt_char|]. intros _.
    apply emits_print. reflexivity.
  - exact (releases_quiet s (Done tt s1) t1 H1 Ha1 Hd1).
  - exact (releases_quiet s (Raised e s1 : outcome unit) t1 H1 Ha1 Hd1).
  - exact (releases_quiet s (Pending s1 : outcome unit) t1 H1 Ha1 Hd1).
Qed.

(** C8, amended.  On every exit path of a client session, in server mode
    and in one-shot mode and whatever the cause of the exit, disconnect has
    been called exactly once on every client the session acquired, the last
    acquired first.  An error raised by a disconnect call is not swallowed:
    the handler ends with the exception of the last disconnect call that
    raised. *)
Theorem session_exit_releases (fuel : nat) (command_name : string)
    (params : list string) (s : state) :
  releases_all s (handle_websocket env fuel path address s)
  /\ releases_all s (execute_command env fuel command_name params address s).
Proof.
  split.
  - apply handle_websocket_releases.
  - apply execute_command_releases.
Qed.

End Handlers.

(** C8, as stated, fails when the disconnect call raises: the error is not
    swallowed, it ends the handler, in server mode and in one-shot mode. *)
Lemma disconnect_error_counterexample :
  handle_websocket stuck 3 "/" "AA:BB" initial
  = Raised (BleakError "disconnect failed")
      {| trace :=
           [EvConnect "AA:BB" 0 (Returned true);
            EvPrint "[INFO] Connected to the device";
            EvRecv (RecvRaised closed);
            EvPrint "[INFO] Websocket connection closed";
            EvDisconnect 0 (Some (BleakError "disconnect failed"))];
         n_connect := 1; n_recv := 1; n_write := 0; n_send := 0;
         n_disconnect := 1 |}
  /\ execute_command stuck 3 "clear" [] "AA:BB" initial
     = Raised (BleakError "disconnect failed")
         {| trace :=
              [EvConnect "AA:BB" 0 (Returned true);
               EvPrint "[INFO] Connected to the device";
               EvEncode "clear" [] [] (inr [Byte.x01]);
               EvWrite 0 "0000fa02-0000-1000-8000-00805f9b34fb" [Byte.x01] None;
               EvPrint "[INFO] Command 'clear' executed successfully.";
               EvDisconnect 0 (Some (BleakError "disconnect failed"))];
            n_connect := 1; n_recv := 0; n_write := 1; n_send := 0;
            n_disconnect := 1 |}.
Proof. split; reflexivity. Qed.

(** ** Recovery from transport loss *)

Section Recovery.

Variable env : Env.
Variable path address : string.

Lemma connect_to_device_first_try (fuel : nat) (s : state) :
  connect_script env (n_connect s) = Returned true ->
  connect_to_device env (S fuel) address default_max_retries s
  = Done (Some (n_connect s))
      (log (EvPrint "[INFO] Connected to the device")
         (count_connect
            (log (EvConnect address (n_connect s) (Returned true)) s))).
Proof.
  intros H. unfold connect_to_device.
  rewrite connect_loop_step by (unfold default_max_retries; lia).
  rewrite connect_attempt_cases. cbv zeta. rewrite H. reflexivity.
Qed.

Lemma session_loop_recv_raises (fuel : nat) (c : handle) (e : exn) (s : state) :
  recv_script env (n_recv s) = RecvRaised e ->
  session_loop env (S fuel) c s
  = Raised e (count_recv (log (EvRecv (RecvRaised e)) s)).
Proof.
  intros H. simpl. unfold bind at 1. unfold ws_recv. rewrite H. reflexivity.
Qed.

Lemma handle_websocket_step (fuel : nat) (s : state) :
  handle_websocket env (S fuel) path address s
  = (client <- connect_to_device env fuel address default_max_retries ;;
     match client with
     | None => ret tt
     | Some c =>
         try_finally
           (try_except (session_loop env fuel c)
              (fun e =>
                 match e with
                 | ConnectionClosed _ =>
                     Some (print "[INFO] Websocket connection closed")
                 | BleakError _ =>
                     Some (print "[ERROR] BLE connection lost, attempting to reconnect..." ;;
                           handle_websocket env fuel path address)
                 | _ => None
                 end))
           (ble_disconnect env c)
     end) s.
Proof. reflexivity. Qed.



End Recovery.




(** ** The main block *)

Section Main.

Variable env : Env.

(** The main block on an accepted command line that has neither the
    server flag nor the command flag. *)
Lemma no_mode_prints_and_exits_zero (cl : CommandLine) (fuel : nat)
    (s : state) :
  flag_server cl = false ->
  opt_command cl = None ->
  main env fuel (parse_args cl) s
  = Done tt
      (log (EvPrint "[ERROR] No mode specified. Use --server or -c with -a to specify an address.") s)
  /\ exit_status (main env fuel (parse_args cl) s) = Some 0%Z
  /\ n_connect (final_state (main env fuel (parse_args cl) s)) = n_connect s.
Proof.
  intros Hs Hc. unfold main, parse_args. simpl. rewrite Hs, Hc.
  repeat split.
Qed.

(** C10.  For every command line with the server flag, the main block
    starts the WebSocket server on the host "localhost" and on the port of
    the command line, 4444 when none is given: the serve call is the first
    thing the run does and the only serve call, and nothing of the command
    line reaches its host argument. *)
Theorem server_binds_localhost (cl : CommandLine) (fuel : nat) (s : state) :
  flag_server cl = true ->
  trace (final_state (main env fuel (parse_args cl) s))
  = trace s
      ++ EvServe "localhost"
           (match opt_port cl with Some p => p | None => 4444%Z end)
           (serve_script env)
         :: match serve_script env with
            | None =>
                [EvPrint
                   ("WebSocket server started on ws://localhost:"
                      ++ str_of_int
                           (match opt_port cl with
                            | Some p => p
                            | None => 4444%Z
                            end))%string]
            | Some _ => []
            end.
Proof.
  intros Hs. unfold main, parse_args. simpl. rewrite Hs.
  unfold start_server, bind, ws_serve, default_port.
  destruct (serve_script env); simpl.
  - reflexivity.
  - rewrite <- app_assoc. reflexivity.
Qed.

End Main.



(** The two runs the amended claim tells apart. *)
Example no_mode_without_address :
  invoke quiet 6
    {| given_server := false; given_port := PortAbsent; given_command := None;
       given_address := None |} initial
  = UsageError 2.
Proof. reflexivity. Qed.

Example no_mode_with_address :
  invoke quiet 6
    {| given_server := false; given_port := PortAbsent; given_command := None;
       given_address := Some "AA:BB"%string |} initial
  = Ran (Done tt
           {| trace :=
                [EvPrint "[ERROR] No mode specified. Use --server or -c with -a to specify an address."];
              n_connect := 0; n_recv := 0; n_write := 0; n_send := 0;
              n_disconnect := 0 |}).
Proof. reflexivity. Qed.


Lemma server_binds_localhost_witness :
  flag_server {| flag_server := true; opt_port := None; opt_command := None;
                 opt_address := "AA:BB" |} = true
  /\ trace
       (final_state
          (main quiet 6
             (parse_args {| flag_server := true; opt_port := None;
                            opt_command := None; opt_address := "AA:BB" |})
             initial))
     = trace initial
         ++ EvServe "localhost"
              (match
                 opt_port {| flag_server := true; opt_port := None;
                             opt_command := None; opt_address := "AA:BB" |}
               with
               | Some p => p
               | None => 4444%Z
               end)
              (serve_script quiet)
            :: match serve_script quiet with
               | None =>
                   [EvPrint
                      ("WebSocket server started on ws://localhost:"
                         ++ str_of_int
                              (match
                                 opt_port
                                   {| flag_server := true; opt_port := None;
                                      opt_command := None;
                                      opt_address := "AA:BB" |}
                               with
                               | Some p => p
                               | None => 4444%Z
                               end))%string]
               | Some _ => []
               end.
Proof.
  split; [reflexivity|].
  apply (server_binds_localhost quiet
           {| flag_server := true; opt_port := None; opt_command := None;
              opt_address := "AA:BB" |} 6 initial).
  reflexivity.
Defined.

(** The server run of the default command line. *)
Example server_default_run :
  main quiet 6
    (parse_args {| flag_server := true; opt_port := None; opt_command := None;
                   opt_address := "AA:BB" |}) initial
  = Pending
      {| trace :=
           [EvServe "localhost" 4444 None;
            EvPrint "WebSocket server started on ws://localhost:4444"];
         n_connect := 0; n_recv := 0; n_write := 0; n_send := 0;
         n_disconnect := 0 |}.
Proof. reflexivity. Qed.

(** * Further properties *)

(** ** Acquisition, pass by pass *)

Section Attempts.

Variable env : Env.
Variable address : string.
Variable max_retries : Z.

Lemma failed_attempts_observed (errors : list string) :
  forall (h : handle) (retries : Z),
    count is_connect (failed_attempts address max_retries h retries errors)
    = length errors
    /\ count is_retry_delay
         (failed_attempts address max_retries h retries errors)
       = length errors
    /\ acquired (failed_attempts address max_retries h retries errors) = []
    /\ disconnects (failed_attempts address max_retries h retries errors) = [].
Proof.
  induction errors as [|m rest IH]; intros h retries.
  - repeat split.
  - destruct (IH (S h) (retries + 1)%Z) as [Hc [Hs [Ha Hd]]].
    unfold count in *. simpl. rewrite Hc, Hs.
    unfold acquired, disconnects in *. simpl. rewrite Ha, Hd. repeat split.
Qed.

(** A run of failed connect calls uses up one pass each and leaves the
    loop where it would be with that many retries counted. *)
Lemma connect_loop_failures (errors : list string) :
  forall (retries : Z) (fuel : nat) (s : state),
    (forall i m, nth_error errors i = Some m ->
                 connect_script env (n_connect s + i)
                 = ConnectRaised (BleakError m)) ->
    (retries + Z.of_nat (length errors) <= max_retries)%Z ->
    length errors <= fuel ->
    exists s',
      connect_loop env fuel address max_retries retries s
      = connect_loop env (fuel - length errors) address max_retries
          (retries + Z.of_nat (length errors)) s'
      /\ trace s'
         = trace s
             ++ failed_attempts address max_retries (n_connect s) retries
                  errors
      /\ n_connect s' = n_connect s + length errors
      /\ n_recv s' = n_recv s
      /\ n_write s' = n_write s
      /\ n_send s' = n_send s
      /\ n_disconnect s' = n_disconnect s.
Proof.
  induction errors as [|m rest IH]; intros retries fuel s Hl Hmax Hfuel.
  - exists s. simpl. rewrite Nat.sub_0_r, Z.add_0_r, app_nil_r, Nat.add_0_r.
    repeat split.
  - destruct fuel as [|fuel]; [simpl in Hfuel; lia|].
    assert (H0 : connect_script env (n_connect s)
                 = ConnectRaised (BleakError m)).
    { rewrite <- (Nat.add_0_r (n_connect s)). apply Hl. reflexivity. }
    rewrite connect_loop_step by (simpl length in Hmax; lia).
    rewrite connect_attempt_cases. cbv zeta. rewrite H0.
    cbn [is_BleakError].
    destruct (IH (retries + 1)%Z fuel
                (log (EvSleep 5)
                   (log (EvPrint
                           (connection_failed retries max_retries
                              (BleakError m)))
                      (count_connect
                         (log (EvConnect address (n_connect s)
                                 (ConnectRaised (BleakError m))) s)))))
      as [s' [Hrun [Htr [Hc [Hr [Hw [Hs Hd]]]]]]].
    + intros i m' Hi. cbn [n_connect log count_connect].
      replace (S (n_connect s) + i) with (n_connect s + S i) by lia.
      apply Hl. exact Hi.
    + simpl length in Hmax. lia.
    + simpl in Hfuel. lia.
    + exists s'. split.
      * rewrite Hrun. simpl length.
        replace (retries + 1 + Z.of_nat (length rest))%Z
          with (retries + Z.of_nat (S (length rest)))%Z by lia.
        reflexivity.
      * cbn [n_connect n_recv n_write n_send n_disconnect trace log
               count_connect] in *.
        split; [rewrite Htr; cbn [failed_attempts];
                repeat rewrite <- app_assoc; reflexivity|].
        simpl length. repeat split; lia.
Qed.

(** X1.  When no connect call returns unconnected, acquisition comes to an
    end within [max_retries] passes, after at most [max_retries] connect
    calls.  It returns a client whose connect call left it connected, or,
    after exactly [max_retries] failed calls each followed by the wait of 5
    seconds, no client; or it ends with the exception of a connect call
    that is not a [BleakError]. *)
Theorem connect_to_device_bounded (fuel : nat) (s : state) :
  (forall h, connect_script env h <> Returned false) ->
  Z.to_nat max_retries <= fuel ->
  exists t,
    trace (final_state (connect_to_device env fuel address max_retries s))
    = trace s ++ t
    /\ count is_connect t <= Z.to_nat max_retries
    /\ match connect_to_device env fuel address max_retries s with
       | Done (Some h) _ =>
           connect_script env h = Returned true
           /\ count is_retry_delay t + 1 = count is_connect t
       | Done None _ =>
           count is_connect t = Z.to_nat max_retries
           /\ count is_retry_delay t = Z.to_nat max_retries
       | Raised e _ =>
           is_BleakError e = false
           /\ count is_retry_delay t + 1 = count is_connect t
       | Pending _ => False
       end.
Proof.
  intros Hrel Hfuel. unfold connect_to_device.
  apply (connect_loop_bounded env address max_retries Hrel
           (Z.to_nat max_retries) 0%Z fuel s); [|exact Hfuel].
  rewrite Z.sub_0_r. reflexivity.
Qed.

(** X2.  With a budget of zero or less, acquisition makes no connect call:
    it prints the line that gives up and returns no client. *)
Theorem connect_to_device_no_budget (fuel : nat) (s : state) :
  (max_retries <= 0)%Z ->
  connect_to_device env fuel address max_retries s
  = Done None
      (log (EvPrint "[ERROR] Could not connect to the device after multiple attempts")
         s).
Proof.
  intros H. unfold connect_to_device.
  apply connect_loop_exhausted. exact H.
Qed.

(** X3.  When the first connect calls fail with a [BleakError], fewer of
    them than [max_retries], and the next one connects, acquisition returns
    the client of that call.  Each failed call is followed by its log line,
    numbered from 1 and showing the budget, and by a wait of 5 seconds;
    nothing else happens. *)
Theorem connect_to_device_after_failures (errors : list string) (fuel : nat)
    (s : state) :
  (forall i m, nth_error errors i = Some m ->
               connect_script env (n_connect s + i)
               = ConnectRaised (BleakError m)) ->
  connect_script env (n_connect s + length errors) = Returned true ->
  (Z.of_nat (length errors) < max_retries)%Z ->
  length errors < fuel ->
  exists s',
    connect_to_device env fuel address max_retries s
    = Done (Some (n_connect s + length errors)) s'
    /\ trace s'
       = trace s
           ++ failed_attempts address max_retries (n_connect s) 0 errors
           ++ [EvConnect address (n_connect s + length errors) (Returned true);
               EvPrint "[INFO] Connected to the device"]
    /\ count is_retry_delay
         (failed_attempts address max_retries (n_connect s) 0 errors)
       = length errors
    /\ n_connect s' = n_connect s + S (length errors).
Proof.
  intros Hl Hok Hlt Hfuel. unfold connect_to_device.
  destruct (connect_loop_failures errors 0%Z fuel s Hl)
    as [s' [Hrun [Htr [Hc _]]]]; [lia | lia |].
  rewrite Hrun.
  destruct (fuel - length errors) as [|rest] eqn:E; [lia|].
  rewrite connect_loop_step by lia.
  rewrite connect_attempt_cases. cbv zeta. rewrite Hc, Hok.
  eexists. split; [reflexivity|].
  cbn [trace log count_connect n_connect]. rewrite Htr.
  split; [repeat rewrite <- app_assoc; reflexivity|].
  split; [apply failed_attempts_observed | lia].
Qed.

(** X4.  When [max_retries] connect calls in a row fail with a
    [BleakError], acquisition returns no client after exactly these calls,
    each with its log line and its wait, and the line that gives up. *)
Theorem connect_to_device_exhausted (errors : list string) (fuel : nat)
    (s : state) :
  (forall i m, nth_error errors i = Some m ->
               connect_script env (n_connect s + i)
               = ConnectRaised (BleakError m)) ->
  Z.of_nat (length errors) = max_retries ->
  length errors <= fuel ->
  exists s',
    connect_to_device env fuel address max_retries s = Done None s'
    /\ trace s'
       = trace s
           ++ failed_attempts address max_retries (n_connect s) 0 errors
           ++ [EvPrint "[ERROR] Could not connect to the device after multiple attempts"]
    /\ count is_connect
         (failed_attempts address max_retries (n_connect s) 0 errors)
       = length errors
    /\ n_connect s' = n_connect s + length errors.
Proof.
  intros Hl Hmax Hfuel. unfold connect_to_device.
  destruct (connect_loop_failures errors 0%Z fuel s Hl)
    as [s' [Hrun [Htr [Hc _]]]]; [lia | lia |].
  rewrite Hrun, connect_loop_exhausted by lia.
  eexists. split; [reflexivity|].
  cbn [trace log n_connect]. rewrite Htr.
  split; [repeat rewrite <- app_assoc; reflexivity|].
  split; [apply failed_attempts_observed | exact Hc].
Qed.

End Attempts.

Lemma connect_to_device_bounded_witness :
  (forall h, connect_script out_of_reach h <> Returned false)
  /\ Z.to_nat 5 <= 5
  /\ exists t,
       trace (final_state (connect_to_device out_of_reach 5 "AA:BB" 5%Z initial))
       = trace initial ++ t
       /\ count is_connect t <= Z.to_nat 5
       /\ match connect_to_device out_of_reach 5 "AA:BB" 5%Z initial with
          | Done (Some h) _ =>
              connect_script out_of_reach h = Returned true
              /\ count is_retry_delay t + 1 = count is_connect t
          | Done None _ =>
              count is_connect t = Z.to_nat 5
              /\ count is_retry_delay t = Z.to_nat 5
          | Raised e _ =>
              is_BleakError e = false
              /\ count is_retry_delay t + 1 = count is_connect t
          | Pending _ => False
          end.
Proof.
  assert (H : forall h, connect_script out_of_reach h <> Returned false).
  { intros h Heq. discriminate Heq. }
  assert (Hf : Z.to_nat 5 <= 5) by (simpl; lia).
  split; [exact H|]. split; [exact Hf|].
  apply (connect_to_device_bounded out_of_reach "AA:BB" 5%Z 5 initial H Hf).
Defined.

Lemma connect_to_device_no_budget_witness :
  (0 <= 0)%Z
  /\ connect_to_device quiet 3 "AA:BB" 0%Z initial
     = Done None
         (log (EvPrint "[ERROR] Could not connect to the device after multiple attempts")
            initial).
Proof.
  split; [lia|].
  apply (connect_to_device_no_budget quiet "AA:BB" 0%Z 3 initial). lia.
Defined.

Lemma connect_to_device_after_failures_witness :
  (forall i m, nth_error ["busy"; "busy"] i = Some m ->
               connect_script busy_twice (n_connect initial + i)
               = ConnectRaised (BleakError m))
  /\ connect_script busy_twice (n_connect initial + length ["busy"; "busy"])
     = Returned true
  /\ (Z.of_nat (length ["busy"; "busy"]) < 5)%Z
  /\ length ["busy"; "busy"] < 3
  /\ exists s',
       connect_to_device busy_twice 3 "AA:BB" 5%Z initial
       = Done (Some (n_connect initial + length ["busy"; "busy"])) s'
       /\ trace s'
          = trace initial
              ++ failed_attempts "AA:BB" 5%Z (n_connect initial) 0
                   ["busy"; "busy"]
              ++ [EvConnect "AA:BB"
                    (n_connect initial + length ["busy"; "busy"])
                    (Returned true);
                  EvPrint "[INFO] Connected to the device"]
       /\ count is_retry_delay
            (failed_attempts "AA:BB" 5%Z (n_connect initial) 0
               ["busy"; "busy"])
          = length ["busy"; "busy"]
       /\ n_connect s' = n_connect initial + S (length ["busy"; "busy"]).
Proof.
  assert (Hl : forall i m, nth_error ["busy"; "busy"] i = Some m ->
                 connect_script busy_twice (n_connect initial + i)
                 = ConnectRaised (BleakError m)).
  { intros i m H.
    do 2 (destruct i as [|i]; [injection H as <-; reflexivity|]).
    destruct i; discriminate H. }
  assert (Hlt : (Z.of_nat (length ["busy"; "busy"]) < 5)%Z) by (simpl; lia).
  assert (Hf : length ["busy"; "busy"] < 3) by (simpl; lia).
  split; [exact Hl|]. split; [reflexivity|]. split; [exact Hlt|].
  split; [exact Hf|].
  apply (connect_to_device_after_failures busy_twice "AA:BB" 5%Z
           ["busy"; "busy"] 3 initial Hl eq_refl Hlt Hf).
Defined.

(** The run of this witness, event by event. *)
Example busy_twice_run :
  connect_to_device busy_twice 3 "AA:BB" 5%Z initial
  = Done (Some 2)
      {| trace :=
           [EvConnect "AA:BB" 0 (ConnectRaised (BleakError "busy"));
            EvPrint "[ERROR] Connection failed (1/5): busy";
            EvSleep 5;
            EvConnect "AA:BB" 1 (ConnectRaised (BleakError "busy"));
            EvPrint "[ERROR] Connection failed (2/5): busy";
            EvSleep 5;
            EvConnect "AA:BB" 2 (Returned true);
            EvPrint "[INFO] Connected to the device"];
         n_connect := 3; n_recv := 0; n_write := 0; n_send := 0;
         n_disconnect := 0 |}.
Proof. vm_compute. reflexivity. Qed.

Lemma connect_to_device_exhausted_witness :
  (forall i m,
     nth_error (repeat "device not found"%string 5) i = Some m ->
     connect_script out_of_reach (n_connect initial + i)
     = ConnectRaised (BleakError m))
  /\ Z.of_nat (length (repeat "device not found"%string 5)) = 5%Z
  /\ length (repeat "device not found"%string 5) <= 5
  /\ exists s',
       connect_to_device out_of_reach 5 "AA:BB" 5%Z initial = Done None s'
       /\ trace s'
          = trace initial
              ++ failed_attempts "AA:BB" 5%Z (n_connect initial) 0
                   (repeat "device not found"%string 5)
              ++ [EvPrint "[ERROR] Could not connect to the device after multiple attempts"]
       /\ count is_connect
            (failed_attempts "AA:BB" 5%Z (n_connect initial) 0
               (repeat "device not found"%string 5))
          = length (repeat "device not found"%string 5)
       /\ n_connect s'
          = n_connect initial + length (repeat "device not found"%string 5).
Proof.
  assert (Hl : forall i m,
             nth_error (repeat "device not found"%string 5) i = Some m ->
             connect_script out_of_reach (n_connect initial + i)
             = ConnectRaised (BleakError m)).
  { intros i m H.
    do 5 (destruct i as [|i]; [injection H as <-; reflexivity|]).
    destruct i; discriminate H. }
  assert (Hf : length (repeat "device not found"%string 5) <= 5)
    by (simpl; lia).
  split; [exact Hl|]. split; [reflexivity|]. split; [exact Hf|].
  apply (connect_to_device_exhausted out_of_reach "AA:BB" 5%Z
           (repeat "device not found"%string 5) 5 initial Hl eq_refl Hf).
Defined.

(** ** One message, case by case *)

Lemma in_COMMANDS_Some (v : value) (name : string) :
  in_COMMANDS v = inr (Some name) -> v = VStr name /\ In name COMMANDS.
Proof.
  destruct v; unfold in_COMMANDS; try discriminate.
  destruct (existsb (String.eqb s) COMMANDS) eqn:E; [|discriminate].
  intros H. injection H as <-. split; [reflexivity|].
  apply existsb_exists in E. destruct E as [n [Hin Heq]].
  apply String.eqb_eq in Heq. subst n. exact Hin.
Qed.

Section Message.

Variable env : Env.
Variable client : handle.

Lemma dispatch_cases (command_name params : value) (s : state) :
  dispatch env client command_name params s
  = match in_COMMANDS command_name with
    | inl e => Raised e s
    | inr None => Done (error "Unknown command") s
    | inr (Some name) =>
        match parse_params params with
        | inl e => Raised e s
        | inr args =>
            match encoder env name (fst args) (snd args) with
            | inl e =>
                Raised e
                  (log (EvEncode name (fst args) (snd args) (inl e)) s)
            | inr data =>
                match write_script env (n_write s) with
                | None =>
                    Done (success name)
                      (count_write
                         (log (EvWrite client WRITE_UUID data None)
                            (log (EvEncode name (fst args) (snd args)
                                    (inr data)) s)))
                | Some e =>
                    Raised e
                      (count_write
                         (log (EvWrite client WRITE_UUID data (Some e))
                            (log (EvEncode name (fst args) (snd args)
                                    (inr data)) s)))
                end
            end
        end
    end.
Proof.
  unfold dispatch, bind, lift.
  destruct (in_COMMANDS command_name) as [e|[name|]]; try reflexivity.
  simpl. destruct (parse_params params) as [e|args]; try reflexivity.
  simpl. unfold call_encoder, lift.
  destruct (encoder env name (fst args) (snd args)) as [e|data];
    try reflexivity.
  simpl. unfold write_gatt_char. simpl.
  destruct (write_script env (n_write s)); reflexivity.
Qed.

Lemma process_message_cases (message : result value) (s : state) :
  process_message env client message s
  = match message with
    | inl e => Done (error (str e)) s
    | inr command_data =>
        match get command_data "command" VNone with
        | inl e => Done (error (str e)) s
        | inr command_name =>
            match get command_data "params" (VList []) with
            | inl e => Done (error (str e)) s
            | inr params =>
                match dispatch env client command_name params s with
                | Raised e s' => Done (error (str e)) s'
                | o => o
                end
            end
        end
    end.
Proof.
  unfold process_message, try_except, bind, lift.
  destruct message as [e|command_data]; [reflexivity|]. simpl.
  destruct (get command_data "command" VNone) as [e|command_name];
    [reflexivity|]. simpl.
  destruct (get command_data "params" (VList [])) as [e|params];
    [reflexivity|]. simpl.
  destruct (dispatch env client command_name params s); reflexivity.
Qed.

(** X5.  Handling a message always ends with a response, whatever the
    message, the encoder and the device do: no exception leaves it.  The
    response is status success with a registered command name, or status
    error with a description. *)
Theorem process_message_always_responds (message : result value) (s : state) :
  exists resp s',
    process_message env client message s = Done resp s'
    /\ ((exists name,
           In name COMMANDS
           /\ resp = [("status", "success"); ("command", name)])
        \/ exists description,
             resp = [("status", "error"); ("message", description)]).
Proof.
  rewrite process_message_cases.
  destruct message as [e|command_data];
    [do 2 eexists; split; [reflexivity | right; eexists; reflexivity]|].
  destruct (get command_data "command" VNone) as [e|command_name];
    [do 2 eexists; split; [reflexivity | right; eexists; reflexivity]|].
  destruct (get command_data "params" (VList [])) as [e|params];
    [do 2 eexists; split; [reflexivity | right; eexists; reflexivity]|].
  rewrite dispatch_cases.
  destruct (in_COMMANDS command_name) as [e|[name|]] eqn:E;
    try (do 2 eexists; split; [reflexivity | right; eexists; reflexivity]).
  destruct (in_COMMANDS_Some _ _ E) as [_ Hin].
  destruct (parse_params params) as [e|args];
    [do 2 eexists; split; [reflexivity | right; eexists; reflexivity]|].
  destruct (encoder env name (fst args) (snd args)) as [e|data];
    [do 2 eexists; split; [reflexivity | right; eexists; reflexivity]|].
  destruct (write_script env (n_write s)) as [e|];
    [do 2 eexists; split; [reflexivity | right; eexists; reflexivity]|].
  do 2 eexists. split; [reflexivity|]. left. exists name.
  split; [exact Hin | reflexivity].
Qed.

(** X6.  A success response is the result only of a registered command
    that was encoded and written: when handling a message gives status
    success, the command name is registered, the encoder returned bytes
    for it, and the handling made exactly two calls, the encoder call and
    one write of those bytes, on the client of the session, to the
    characteristic 0000fa02-0000-1000-8000-00805f9b34fb, which returned. *)
Theorem success_response_means_written
    (message : result value) (resp : response) (s s' : state) :
  process_message env client message s = Done resp s' ->
  lookup "status" resp = Some "success"%string ->
  exists name args kw data,
    In name COMMANDS
    /\ resp = [("status", "success"); ("command", name)]
    /\ encoder env name args kw = inr data
    /\ write_script env (n_write s) = None
    /\ trace s'
       = trace s
           ++ [EvEncode name args kw (inr data);
               EvWrite client "0000fa02-0000-1000-8000-00805f9b34fb" data None].
Proof.
  rewrite process_message_cases.
  destruct message as [e|command_data];
    [intros H; injection H as <- <-; intros H0; cbv in H0; discriminate H0|].
  destruct (get command_data "command" VNone) as [e|command_name];
    [intros H; injection H as <- <-; intros H0; cbv in H0; discriminate H0|].
  destruct (get command_data "params" (VList [])) as [e|params];
    [intros H; injection H as <- <-; intros H0; cbv in H0; discriminate H0|].
  rewrite dispatch_cases.
  destruct (in_COMMANDS command_name) as [e|[name|]] eqn:E;
    try (intros H; injection H as <- <-; intros H0; cbv in H0; discriminate H0).
  destruct (in_COMMANDS_Some _ _ E) as [_ Hin].
  destruct (parse_params params) as [e|[args kw]];
    [intros H; injection H as <- <-; intros H0; cbv in H0; discriminate H0|].
  simpl fst. simpl snd.
  destruct (encoder env name args kw) as [e|data] eqn:Eenc;
    [intros H; injection H as <- <-; intros H0; cbv in H0; discriminate H0|].
  destruct (write_script env (n_write s)) as [e|] eqn:Ew;
    [intros H; injection H as <- <-; intros H0; cbv in H0; discriminate H0|].
  intros H _. injection H as <- <-.
  exists name, args, kw, data.
  split; [exact Hin|]. split; [reflexivity|]. split; [exact Eenc|].
  split; [reflexivity|]. simpl. rewrite <- app_assoc. reflexivity.
Qed.

(** X7.  In server mode a write the device refuses, with a [BleakError] or
    any other exception, is answered like every other failure of the
    message: the result is status error with the description of the
    exception, after the encoder call and that one write, and the session
    loop sends it and goes on with its next pass on the same client. *)
Theorem write_failure_is_error_response
    (fields : list (string * value)) (name : string) (args : list value)
    (kw : kwargs) (data : bytes) (e : exn) (fuel : nat) (s : state) :
  recv_script env (n_recv s) = Message (inr (VDict fields)) ->
  command_of fields = VStr name ->
  In name COMMANDS ->
  parse_params (params_of fields) = inr (args, kw) ->
  encoder env name args kw = inr data ->
  write_script env (n_write s) = Some e ->
  process_message env client (inr (VDict fields)) s
  = Done [("status", "error"); ("message", str e)]
      (count_write
         (log (EvWrite client "0000fa02-0000-1000-8000-00805f9b34fb" data
                 (Some e))
            (log (EvEncode name args kw (inr data)) s)))
  /\ session_loop env (S fuel) client s
     = (ws_send env [("status", "error"); ("message", str e)] ;;
        session_loop env fuel client)
         (count_write
            (log (EvWrite client "0000fa02-0000-1000-8000-00805f9b34fb" data
                    (Some e))
               (log (EvEncode name args kw (inr data))
                  (count_recv
                     (log (EvRecv (Message (inr (VDict fields)))) s))))).
Proof.
  intros Hrecv Hname Hreg Hparse Henc Hwrite.
  assert (Hp : forall s0,
    n_write s0 = n_write s ->
    process_message env client (inr (VDict fields)) s0
    = Done (error (str e))
        (count_write
           (log (EvWrite client WRITE_UUID data (Some e))
              (log (EvEncode name args kw (inr data)) s0)))).
  { intros s0 Hn. rewrite process_message_cases. simpl get.
    fold (command_of fields). fold (params_of fields).
    rewrite Hname, dispatch_cases, (in_COMMANDS_registered _ Hreg), Hparse.
    simpl fst. simpl snd. rewrite Henc, Hn, Hwrite. reflexivity. }
  split; [apply Hp; reflexivity|].
  simpl. unfold bind at 1. unfold ws_recv. rewrite Hrecv.
  unfold bind at 1. rewrite Hp by reflexivity. reflexivity.
Qed.

(** X8.  A message that cannot be decoded, or that decodes to anything but
    an object, is answered with status error, the description being that
    of the decoding error or of the missing [get] method; nothing else
    happens: no encoder call, no write. *)
Theorem undecodable_message_is_error (message : result value) (s : state) :
  (forall fields, message <> inr (VDict fields)) ->
  process_message env client message s
  = Done [("status", "error");
          ("message",
           match message with
           | inl e => str e
           | inr v =>
               ("'" ++ type_name v ++ "' object has no attribute 'get'")%string
           end)]
      s.
Proof.
  intros H. rewrite process_message_cases.
  destruct message as [e|v]; [reflexivity|].
  destruct v; try reflexivity.
  exfalso. exact (H entries eq_refl).
Qed.

End Message.

Lemma success_response_means_written_witness :
  process_message quiet 0 clear_request initial
  = Done [("status", "success"); ("command", "clear")]
      (count_write
         (log (EvWrite 0 WRITE_UUID [Byte.x01] None)
            (log (EvEncode "clear" [] [] (inr [Byte.x01])) initial)))
  /\ lookup "status" [("status", "success"); ("command", "clear")]
     = Some "success"%string
  /\ exists name args kw data,
       In name COMMANDS
       /\ [("status", "success"); ("command", "clear")]
          = [("status", "success"); ("command", name)]
       /\ encoder quiet name args kw = inr data
       /\ write_script quiet (n_write initial) = None
       /\ trace
            (count_write
               (log (EvWrite 0 WRITE_UUID [Byte.x01] None)
                  (log (EvEncode "clear" [] [] (inr [Byte.x01])) initial)))
          = trace initial
              ++ [EvEncode name args kw (inr data);
                  EvWrite 0 "0000fa02-0000-1000-8000-00805f9b34fb" data None].
Proof.
  split; [reflexivity|]. split; [reflexivity|].
  apply (success_response_means_written quiet 0 clear_request
           [("status", "success"); ("command", "clear")] initial
           (count_write
              (log (EvWrite 0 WRITE_UUID [Byte.x01] None)
                 (log (EvEncode "clear" [] [] (inr [Byte.x01])) initial))));
    reflexivity.
Defined.

Lemma write_failure_is_error_response_witness :
  recv_script refusing_writes (n_recv initial)
  = Message (inr (VDict [("command", VStr "clear")]))
  /\ command_of [("command", VStr "clear")] = VStr "clear"
  /\ In "clear"%string COMMANDS
  /\ parse_params (params_of [("command", VStr "clear")]) = inr ([], [])
  /\ encoder refusing_writes "clear" [] [] = inr [Byte.x01]
  /\ write_script refusing_writes (n_write initial)
     = Some (BleakError "not connected")
  /\ process_message refusing_writes 0 (inr (VDict [("command", VStr "clear")]))
       initial
     = Done [("status", "error"); ("message", str (BleakError "not connected"))]
         (count_write
            (log (EvWrite 0 "0000fa02-0000-1000-8000-00805f9b34fb" [Byte.x01]
                    (Some (BleakError "not connected")))
               (log (EvEncode "clear" [] [] (inr [Byte.x01])) initial)))
  /\ session_loop refusing_writes 3 0 initial
     = (ws_send refusing_writes
          [("status", "error"); ("message", str (BleakError "not connected"))] ;;
        session_loop refusing_writes 2 0)
         (count_write
            (log (EvWrite 0 "0000fa02-0000-1000-8000-00805f9b34fb" [Byte.x01]
                    (Some (BleakError "not connected")))
               (log (EvEncode "clear" [] [] (inr [Byte.x01]))
                  (count_recv
                     (log (EvRecv
                             (Message (inr (VDict [("command", VStr "clear")]))))
                        initial))))).
Proof.
  assert (Hin : In "clear"%string COMMANDS) by (simpl; tauto).
  repeat (split; [first [reflexivity | exact Hin]|]).
  apply (write_failure_is_error_response refusing_writes 0
           [("command", VStr "clear")] "clear" [] [] [Byte.x01]
           (BleakError "not connected") 2 initial);
    first [reflexivity | exact Hin].
Defined.

Lemma undecodable_message_is_error_witness :
  (forall fields, inl decode_error <> inr (VDict fields))
  /\ process_message quiet 0 (inl decode_error) initial
     = Done [("status", "error");
             ("message",
              match (inl decode_error : result value) with
              | inl e => str e
              | inr v =>
                  ("'" ++ type_name v ++ "' object has no attribute 'get'")%string
              end)]
         initial.
Proof.
  assert (H : forall fields, inl decode_error <> inr (VDict fields)).
  { intros fields Heq. discriminate Heq. }
  split; [exact H|].
  apply (undecodable_message_is_error quiet 0 (inl decode_error) initial H).
Defined.

(** A message that decodes to a list, not to an object. *)
Example list_message_is_error :
  process_message quiet 0 (inr (VList [VStr "clear"])) initial
  = Done [("status", "error");
          ("message", "'list' object has no attribute 'get'")] initial.
Proof. reflexivity. Qed.

(** ** The session loop, pass by pass *)

Lemma count_cons (p : event -> bool) (ev : event) (t : list event) :
  count p (ev :: t) = (if p ev then 1 else 0) + count p t.
Proof. unfold count. simpl. destruct (p ev); reflexivity. Qed.

Lemma count_nil (p : event -> bool) : count p [] = 0.
Proof. reflexivity. Qed.

Section Passes.

Variable env : Env.
Variable client : handle.

(** What handling one message adds to the trace: nothing, an encoder
    call, or an encoder call and a write. *)
Lemma process_message_delta (message : result value) (s : state) :
  exists resp s' d,
    process_message env client message s = Done resp s'
    /\ trace s' = trace s ++ d
    /\ count is_send d = 0
    /\ count is_message d = 0
    /\ count is_write d <= count is_encode d
    /\ count is_encode d <= 1.
Proof.
  rewrite process_message_cases.
  assert (Hnil : forall resp,
            exists resp' s' d,
              (Done resp s : outcome response) = Done resp' s'
              /\ trace s' = trace s ++ d
              /\ count is_send d = 0
              /\ count is_message d = 0
              /\ count is_write d <= count is_encode d
              /\ count is_encode d <= 1).
  { intros resp. exists resp, s, []. rewrite app_nil_r.
    repeat split; unfold count; simpl; lia. }
  destruct message as [e|command_data]; [apply Hnil|].
  destruct (get command_data "command" VNone) as [e|command_name];
    [apply Hnil|].
  destruct (get command_data "params" (VList [])) as [e|params];
    [apply Hnil|].
  rewrite dispatch_cases.
  destruct (in_COMMANDS command_name) as [e|[name|]]; try apply Hnil.
  destruct (parse_params params) as [e|args]; [apply Hnil|].
  destruct (encoder env name (fst args) (snd args)) as [e|data].
  - do 2 eexists. exists [EvEncode name (fst args) (snd args) (inl e)].
    split; [reflexivity|]. split; [reflexivity|].
    repeat split; unfold count; simpl; lia.
  - destruct (write_script env (n_write s)) as [e|];
      do 2 eexists;
      eexists [EvEncode name (fst args) (snd args) (inr data);
               EvWrite client WRITE_UUID data _];
      (split; [reflexivity|]);
      (split; [simpl; rewrite <- app_assoc; reflexivity|]);
      repeat split; unfold count; simpl; lia.
Qed.

Lemma session_loop_counts (fuel : nat) :
  forall s, exists t,
    trace (final_state (session_loop env fuel client s)) = trace s ++ t
    /\ count is_send t = count is_message t
    /\ count is_write t <= count is_encode t
    /\ count is_encode t <= count is_message t.
Proof.
  induction fuel as [|fuel IH]; intros s.
  - exists []. simpl. rewrite app_nil_r. repeat split; unfold count; simpl; lia.
  - simpl. unfold bind at 1. unfold ws_recv.
    destruct (recv_script env (n_recv s)) as [m|e].
    + unfold bind at 1.
      destruct (process_message_delta m
                  (count_recv (log (EvRecv (Message m)) s)))
        as [resp [s1 [d [Hrun [Hd [Hs [Hm [Hw He]]]]]]]].
      rewrite Hrun. unfold bind at 1. unfold ws_send.
      destruct (send_script env (n_send s1)) as [e|].
      * exists (EvRecv (Message m) :: d ++ [EvSend resp (Some e)]).
        split.
        -- simpl. rewrite Hd. simpl. repeat rewrite <- app_assoc. reflexivity.
        -- rewrite !count_cons, !count_app, !count_cons, !count_nil.
           cbn [is_send is_message is_write is_encode]. lia.
      * cbn [answer].
        destruct (IH (count_send (log (EvSend resp None) s1)))
          as [t [Ht [Hs' [Hw' He']]]].
        exists (EvRecv (Message m) :: d ++ EvSend resp None :: t).
        split.
        -- rewrite Ht. simpl. rewrite Hd. simpl.
           repeat rewrite <- app_assoc. reflexivity.
        -- rewrite !count_cons, !count_app, !count_cons.
           cbn [is_send is_message is_write is_encode]. lia.
    + exists [EvRecv (RecvRaised e)]. simpl. split; [reflexivity|].
      repeat split; unfold count; simpl; lia.
Qed.

(** X9.  At every point of a session loop, as many responses were handed
    to the WebSocket as messages were received, one for each; the device
    was written to at most once for each encoder call, and an encoder was
    called at most once for each message. *)
Theorem session_loop_one_response_per_message (fuel : nat) (s : state) :
  exists t,
    trace (final_state (session_loop env fuel client s)) = trace s ++ t
    /\ count is_send t = count is_message t
    /\ count is_write t <= count is_encode t
    /\ count is_encode t <= count is_message t.
Proof. apply session_loop_counts. Qed.

(** X10.  The session loop does not return, and the only exceptions that
    end it are those of the WebSocket: when it ends with an exception, its
    last call is the receive or the send that raised it.  No failure of
    decoding, of an encoder or of a device write ends the loop. *)
Theorem session_loop_left_by_websocket_only (fuel : nat) (s : state) :
  match session_loop env fuel client s with
  | Done _ _ => False
  | Raised e s' =>
      exists t,
        trace s' = trace s ++ t ++ [EvRecv (RecvRaised e)]
        \/ exists resp, trace s' = trace s ++ t ++ [EvSend resp (Some e)]
  | Pending _ => True
  end.
Proof.
  revert s. induction fuel as [|fuel IH]; intros s; [exact I|].
  simpl. unfold bind at 1. unfold ws_recv.
  destruct (recv_script env (n_recv s)) as [m|e].
  - unfold bind at 1.
    destruct (process_message_delta m
                (count_recv (log (EvRecv (Message m)) s)))
      as [resp [s1 [d [Hrun [Hd _]]]]].
    rewrite Hrun. unfold bind at 1. unfold ws_send.
    destruct (send_script env (n_send s1)) as [e|].
    + exists (EvRecv (Message m) :: d). right. exists resp.
      simpl. rewrite Hd. simpl. repeat rewrite <- app_assoc. reflexivity.
    + cbn [answer].
      specialize (IH (count_send (log (EvSend resp None) s1))).
      destruct (session_loop env fuel client
                  (count_send (log (EvSend resp None) s1)))
        as [a s2|e s2|s2]; [exact IH| |exact I].
      destruct IH as [t [Ht|[resp' Ht]]].
      * exists (EvRecv (Message m) :: d ++ EvSend resp None :: t). left.
        rewrite Ht. simpl. rewrite Hd. simpl.
        repeat rewrite <- app_assoc. reflexivity.
      * exists (EvRecv (Message m) :: d ++ EvSend resp None :: t). right.
        exists resp'. rewrite Ht. simpl. rewrite Hd. simpl.
        repeat rewrite <- app_assoc. reflexivity.
  - exists []. left. reflexivity.
Qed.

End Passes.

(** ** The clients in use *)

Lemma use_handles_app (t1 t2 : list event) :
  forall live,
    use_handles (t1 ++ t2) live
    = match use_handles t1 live with
      | Some live1 => use_handles t2 live1
      | None => None
      end.
Proof.
  induction t1 as [|ev t1 IH]; intros live; [reflexivity|].
  destruct ev as [a h [[|]|e]| | | | |h u d r| |h r|]; simpl;
    try apply IH.
  - destruct live as [|c rest]; [reflexivity|].
    destruct (Nat.eqb h c && String.eqb u WRITE_UUID); [apply IH|reflexivity].
  - destruct live as [|c rest]; [reflexivity|].
    destruct (Nat.eqb h c); [apply IH|reflexivity].
Qed.

Lemma use_handles_session (c : handle) (t : list event) :
  Forall (fun ev => session_event_of c ev = true) t ->
  forall live, use_handles t (c :: live) = Some (c :: live).
Proof.
  induction 1 as [|ev t Hev _ IH]; intros live; [reflexivity|].
  destruct ev; try discriminate Hev; simpl; try apply IH.
  simpl in Hev. rewrite Hev. apply IH.
Qed.

Lemma use_handles_acquisition (t : list event) :
  Forall (fun ev => acquisition_event ev = true) t ->
  forall live, use_handles t live = Some (rev (acquired t) ++ live).
Proof.
  induction 1 as [|ev t Hev _ IH]; intros live; [reflexivity|].
  destruct ev as [a h [[|]|e]| | | | |h u d r| |h r|];
    try discriminate Hev; simpl; try apply IH.
  rewrite IH. unfold acquired. simpl. rewrite <- app_assoc. reflexivity.
Qed.

Section Kinds.

Variable env : Env.
Variable kind : event -> bool.

Lemma emits_ble_connect (address : string) :
  (forall h r, kind (EvConnect address h r) = true) ->
  emits kind (ble_connect env address).
Proof.
  intros Hk s. unfold ble_connect.
  exists [EvConnect address (n_connect s) (connect_script env (n_connect s))].
  destruct (connect_script env (n_connect s));
    simpl; (split; [reflexivity | constructor; auto]).
Qed.

Lemma emits_sleep (seconds : Z) :
  kind (EvSleep seconds) = true -> emits kind (sleep seconds).
Proof.
  intros Hk s. exists [EvSleep seconds]. simpl. split; [reflexivity|].
  constructor; auto.
Qed.

Lemma emits_ws_recv_kind :
  (forall r, kind (EvRecv r) = true) -> emits kind (ws_recv env).
Proof.
  intros Hk s. exists [EvRecv (recv_script env (n_recv s))].
  unfold ws_recv. destruct (recv_script env (n_recv s));
    simpl; (split; [reflexivity | constructor; auto]).
Qed.

Lemma emits_call_encoder_kind (name : string) (args : list value)
    (kw : kwargs) :
  (forall r, kind (EvEncode name args kw r) = true) ->
  emits kind (call_encoder env name args kw).
Proof.
  intros Hk s. exists [EvEncode name args kw (encoder env name args kw)].
  unfold call_encoder. destruct (encoder env name args kw);
    simpl; (split; [reflexivity | constructor; auto]).
Qed.

Lemma emits_write_gatt_char_kind (h : handle) (uuid : string) (data : bytes) :
  (forall r, kind (EvWrite h uuid data r) = true) ->
  emits kind (write_gatt_char env h uuid data).
Proof.
  intros Hk s. unfold write_gatt_char.
  exists [EvWrite h uuid data (write_script env (n_write s))].
  destruct (write_script env (n_write s));
    simpl; (split; [reflexivity | constructor; auto]).
Qed.

Lemma emits_ws_send_kind (resp : response) :
  (forall r, kind (EvSend resp r) = true) -> emits kind (ws_send env resp).
Proof.
  intros Hk s. unfold ws_send.
  exists [EvSend resp (send_script env (n_send s))].
  destruct (send_script env (n_send s));
    simpl; (split; [reflexivity | constructor; auto]).
Qed.

End Kinds.

Section Discipline.

Variable env : Env.

Lemma session_event_of_write (c : handle) (data : bytes) (r : option exn) :
  session_event_of c (EvWrite c WRITE_UUID data r) = true.
Proof. simpl. rewrite Nat.eqb_refl. reflexivity. Qed.

Lemma emits_dispatch_of (c : handle) (command_name params : value) :
  emits (session_event_of c) (dispatch env c command_name params).
Proof.
  unfold dispatch. apply emits_bind; [apply emits_lift|].
  intros [name|]; [|apply emits_ret].
  apply emits_bind; [apply emits_lift|]. intros args.
  apply emits_bind; [apply emits_call_encoder_kind; reflexivity|]. intros data.
  apply emits_bind;
    [apply emits_write_gatt_char_kind; apply session_event_of_write|].
  intros _. apply emits_ret.
Qed.

Lemma emits_session_loop_of (fuel : nat) (c : handle) :
  emits (session_event_of c) (session_loop env fuel c).
Proof.
  induction fuel as [|fuel IH]; simpl.
  - apply emits_pending.
  - apply emits_bind; [apply emits_ws_recv_kind; reflexivity|]. intros message.
    apply emits_bind.
    + unfold process_message. apply emits_try_except.
      * apply emits_bind; [apply emits_lift|]. intros command_data.
        apply emits_bind; [apply emits_lift|]. intros command_name.
        apply emits_bind; [apply emits_lift|]. intros params.
        apply emits_dispatch_of.
      * intros e h Heq. injection Heq as <-. apply emits_ret.
    + intros resp.
      apply emits_bind; [apply emits_ws_send_kind; reflexivity|]. intros _.
      exact IH.
Qed.

Lemma emits_connect_loop (address : string) (max_retries : Z) (fuel : nat) :
  forall retries,
    emits acquisition_event
      (connect_loop env fuel address max_retries retries).
Proof.
  assert (Hattempt : forall retries,
            emits acquisition_event
              (connect_attempt env address max_retries retries)).
  { intros retries. unfold connect_attempt. apply emits_try_except.
    - apply emits_bind; [apply emits_ble_connect; reflexivity|].
      intros client. destruct (snd client); [|apply emits_ret].
      apply emits_bind; [apply emits_print; reflexivity|]. intros _.
      apply emits_ret.
    - intros e h Heq. destruct e; try discriminate Heq.
      injection Heq as <-.
      apply emits_bind; [apply emits_print; reflexivity|]. intros _.
      apply emits_bind; [apply emits_sleep; reflexivity|]. intros _.
      apply emits_ret. }
  assert (Hend : emits acquisition_event
                   (print "[ERROR] Could not connect to the device after multiple attempts" ;;
                    ret (None : option handle))).
  { apply emits_bind; [apply emits_print; reflexivity|]. intros _.
    apply emits_ret. }
  induction fuel as [|fuel IH]; intros retries; simpl;
    destruct (retries <? max_retries)%Z; try exact Hend.
  - apply emits_pending.
  - apply emits_bind; [apply Hattempt|].
    intros [c|retries']; [apply emits_ret | apply IH].
Qed.

(** Acquisition puts on the stack the client it returns and nothing
    else. *)
Lemma connect_loop_pushes (address : string) (max_retries : Z) (fuel : nat)
    (retries : Z) (s : state) :
  exists t,
    trace (final_state (connect_loop env fuel address max_retries retries s))
    = trace s ++ t
    /\ forall live,
         use_handles t live
         = Some (match connect_loop env fuel address max_retries retries s with
                 | Done (Some h) _ => h :: live
                 | _ => live
                 end).
Proof.
  destruct (emits_connect_loop address max_retries fuel retries s)
    as [t [Ht Hf]].
  destruct (connect_loop_acquires env address max_retries fuel retries s)
    as [t' [Ht' [_ Ha]]].
  assert (t' = t) by (apply (app_inv_head (trace s)); congruence). subst t'.
  exists t. split; [exact Ht|]. intros live.
  rewrite (use_handles_acquisition t Hf), Ha.
  destruct (connect_loop env fuel address max_retries retries s)
    as [[h|] s'|e s'|s']; reflexivity.
Qed.

(** A body that keeps to the rule on top of the client [c], run under the
    [finally] clause of [c] acquired just before, keeps to the rule. *)
Lemma try_finally_well_used {A : Type} (body : M A) (c : handle)
    (s s1 : state) (t1 : list event) :
  trace s1 = trace s ++ t1 ->
  (forall live, use_handles t1 live = Some (c :: live)) ->
  (exists t2,
     trace (final_state (body s1)) = trace s1 ++ t2
     /\ forall live, exists live',
          use_handles t2 (c :: live) = Some (live' ++ c :: live)
          /\ (terminated (body s1) = true -> live' = [])) ->
  handles_well_used s (try_finally body (ble_disconnect env c) s1).
Proof.
  intros H1 Hu1 [t2 [H2 Hu2]].
  rewrite try_finally_disconnect.
  assert (Hend : forall r live,
            terminated (body s1) = true ->
            use_handles (t1 ++ t2 ++ [EvDisconnect c r]) live = Some live).
  { intros r live Hterm. rewrite use_handles_app, Hu1, use_handles_app.
    destruct (Hu2 live) as [live' [Hu Hl]]. rewrite Hu, (Hl Hterm).
    simpl. rewrite Nat.eqb_refl. reflexivity. }
  destruct (body s1) as [a s2|e0 s2|s2]; simpl in H2.
  - set (r := disconnect_script env (n_disconnect s2)).
    exists (t1 ++ t2 ++ [EvDisconnect c r]). split.
    + cbv zeta. fold r. destruct r; simpl; rewrite H2, H1;
        repeat rewrite <- app_assoc; reflexivity.
    + intros live. exists []. split; [apply Hend; reflexivity|].
      intros _. reflexivity.
  - set (r := disconnect_script env (n_disconnect s2)).
    exists (t1 ++ t2 ++ [EvDisconnect c r]). split.
    + cbv zeta. fold r. destruct r; simpl; rewrite H2, H1;
        repeat rewrite <- app_assoc; reflexivity.
    + intros live. exists []. split; [apply Hend; reflexivity|].
      intros _. reflexivity.
  - exists (t1 ++ t2). split.
    + simpl. rewrite H2, H1, app_assoc. reflexivity.
    + intros live. destruct (Hu2 live) as [live' [Hu _]].
      exists (live' ++ [c]). rewrite use_handles_app, Hu1, Hu.
      split; [rewrite <- app_assoc; reflexivity|].
      intros Hterm. discriminate Hterm.
Qed.

Lemma well_used_quiet {A : Type} (s : state) (o : outcome A) (t : list event) :
  trace (final_state o) = trace s ++ t ->
  (forall live, use_handles t live = Some live) ->
  handles_well_used s o.
Proof.
  intros Ht Hu. exists t. split; [exact Ht|].
  intros live. exists []. split; [apply Hu|]. intros _. reflexivity.
Qed.

Variable path address : string.

Lemma handle_websocket_well_used (fuel : nat) :
  forall s, handles_well_used s (handle_websocket env fuel path address s).
Proof.
  induction fuel as [|fuel IH]; intros s.
  - apply (well_used_quiet _ _ []); [|reflexivity].
    simpl. rewrite app_nil_r. reflexivity.
  - rewrite handle_websocket_step. unfold bind at 1. unfold connect_to_device.
    destruct (connect_loop_pushes address default_max_retries fuel 0%Z s)
      as [t1 [H1 Hu1]].
    destruct (connect_loop env fuel address default_max_retries 0 s)
      as [[c|] s1|e s1|s1].
    + apply (try_finally_well_used _ c s s1 t1 H1 Hu1).
      unfold try_except.
      destruct (emits_session_loop_of fuel c s1) as [t2 [H2 F2]].
      pose proof (use_handles_session c t2 F2) as Hs2.
      destruct (session_loop env fuel c s1) as [a s2|e s2|s2].
      * exists t2. split; [exact H2|]. intros live. exists [].
        split; [apply Hs2 | reflexivity].
      * simpl in H2. destruct e as [m|m|cls m].
        -- exists (t2 ++ [EvPrint "[INFO] Websocket connection closed"]).
           split; [simpl; rewrite H2, app_assoc; reflexivity|].
           intros live. exists []. rewrite use_handles_app, Hs2.
           split; reflexivity.
        -- unfold bind, print.
           set (s3 := log (EvPrint "[ERROR] BLE connection lost, attempting to reconnect...") s2).
           destruct (IH s3) as [t3 [H3 Hu3]].
           exists (t2 ++ EvPrint "[ERROR] BLE connection lost, attempting to reconnect..." :: t3).
           split.
           ++ rewrite H3. unfold s3. simpl. rewrite H2.
              repeat rewrite <- app_assoc. reflexivity.
           ++ intros live. destruct (Hu3 (c :: live)) as [live' [Hu Hl]].
              exists live'. rewrite use_handles_app, Hs2. simpl.
              split; assumption.
        -- exists t2. split; [exact H2|]. intros live. exists [].
           split; [apply Hs2 | reflexivity].
      * exists t2. split; [exact H2|]. intros live. exists [].
        split; [apply Hs2 | reflexivity].
    + exact (well_used_quiet s (Done tt s1) t1 H1 Hu1).
    + exact (well_used_quiet s (Raised e s1 : outcome unit) t1 H1 Hu1).
    + exact (well_used_quiet s (Pending s1 : outcome unit) t1 H1 Hu1).
Qed.

Lemma execute_command_well_used (fuel : nat) (command_name : string)
    (params : list string) (s : state) :
  handles_well_used s
    (execute_command env fuel command_name params address s).
Proof.
  unfold execute_command. unfold bind at 1. unfold connect_to_device.
  destruct (connect_loop_pushes address default_max_retries fuel 0%Z s)
    as [t1 [H1 Hu1]].
  destruct (connect_loop env fuel address default_max_retries 0 s)
    as [[c|] s1|e s1|s1].
  - apply (try_finally_well_used _ c s s1 t1 H1 Hu1).
    match goal with
    | |- exists t2, trace (final_state (?body s1)) = _ /\ _ =>
        assert (Hb : emits (session_event_of c) body)
    end.
    { apply emits_bind; [apply emits_lift|].
      intros [name|]; [|apply emits_print; reflexivity].
      apply emits_bind; [apply emits_lift|]. intros args.
      apply emits_bind; [apply emits_call_encoder_kind; reflexivity|].
      intros data.
      apply emits_bind;
        [apply emits_write_gatt_char_kind; apply session_event_of_write|].
      intros _. apply emits_print. reflexivity. }
    destruct (Hb s1) as [t2 [H2 F2]].
    exists t2. split; [exact H2|]. intros live. exists [].
    split; [apply (use_handles_session c t2 F2) | reflexivity].
  - exact (well_used_quiet s (Done tt s1) t1 H1 Hu1).
  - exact (well_used_quiet s (Raised e s1 : outcome unit) t1 H1 Hu1).
  - exact (well_used_quiet s (Pending s1 : outcome unit) t1 H1 Hu1).
Qed.

(** X11.  In server mode and in one-shot mode alike, the clients are used
    as a stack.  Every device write is made on the client acquired last
    and not yet disconnected, and to the characteristic
    0000fa02-0000-1000-8000-00805f9b34fb; every disconnect is made on that
    client; so no write and no second disconnect is ever made on a client
    that was disconnected, and when the handler has come to an end every
    client it acquired has been disconnected. *)
Theorem handles_used_as_a_stack (fuel : nat) (command_name : string)
    (params : list string) (s : state) :
  handles_well_used s (handle_websocket env fuel path address s)
  /\ handles_well_used s
       (execute_command env fuel command_name params address s).
Proof.
  split.
  - apply handle_websocket_well_used.
  - apply execute_command_well_used.
Qed.

End Discipline.

(** ** The one-shot path *)

Section OneShot.

Variable env : Env.
Variable address : string.

Lemma parse_params_tokens (params : list string) :
  parse_params (VList (map VStr params))
  = inr (positional_of params, keywords_of params).
Proof. unfold parse_params. simpl. apply classify_all_tokens. Qed.

(** The body of the [try] of the one-shot path, on client [c]. *)
Lemma one_shot_body_cases (c : handle) (command_name : string)
    (params : list string) (s1 : state) :
  (registered <- lift (in_COMMANDS (VStr command_name)) ;;
   match registered with
   | Some name =>
       args <- lift (parse_params (VList (map VStr params))) ;;
       data <- call_encoder env name (fst args) (snd args) ;;
       write_gatt_char env c WRITE_UUID data ;;
       print ("[INFO] Command '" ++ command_name
                ++ "' executed successfully.")%string
   | None => print ("[ERROR] Unknown command: " ++ command_name)%string
   end) s1
  = if existsb (String.eqb command_name) COMMANDS then
      match encoder env command_name (positional_of params)
              (keywords_of params) with
      | inl e =>
          Raised e
            (log (EvEncode command_name (positional_of params)
                    (keywords_of params) (inl e)) s1)
      | inr data =>
          match write_script env (n_write s1) with
          | None =>
              Done tt
                (log (EvPrint (executed command_name))
                   (count_write
                      (log (EvWrite c WRITE_UUID data None)
                         (log (EvEncode command_name (positional_of params)
                                 (keywords_of params) (inr data)) s1))))
          | Some e =>
              Raised e
                (count_write
                   (log (EvWrite c WRITE_UUID data (Some e))
                      (log (EvEncode command_name (positional_of params)
                              (keywords_of params) (inr data)) s1)))
          end
      end
    else Done tt (log (EvPrint (unknown_command command_name)) s1).
Proof.
  unfold bind at 1. unfold lift at 1. unfold in_COMMANDS.
  destruct (existsb (String.eqb command_name) COMMANDS); [|reflexivity].
  unfold ret at 1. unfold bind at 1. rewrite parse_params_tokens.
  unfold lift at 1. unfold ret at 1. cbn [fst snd].
  unfold bind at 1. unfold call_encoder, lift.
  destruct (encoder env command_name (positional_of params)
              (keywords_of params)) as [e|data]; [reflexivity|].
  unfold ret at 1. unfold bind at 1. unfold write_gatt_char.
  cbn [n_write log].
  destruct (write_script env (n_write s1)) as [e|]; reflexivity.
Qed.

(** The one-shot path once the first connect call has connected. *)
Lemma execute_command_acquired (fuel : nat) (command_name : string)
    (params : list string) (s : state) :
  connect_script env (n_connect s) = Returned true ->
  execute_command env (S fuel) command_name params address s
  = try_finally
      (fun s1 =>
         if existsb (String.eqb command_name) COMMANDS then
           match encoder env command_name (positional_of params)
                   (keywords_of params) with
           | inl e =>
               Raised e
                 (log (EvEncode command_name (positional_of params)
                         (keywords_of params) (inl e)) s1)
           | inr data =>
               match write_script env (n_write s1) with
               | None =>
                   Done tt
                     (log (EvPrint (executed command_name))
                        (count_write
                           (log (EvWrite (n_connect s) WRITE_UUID data None)
                              (log (EvEncode command_name
                                      (positional_of params)
                                      (keywords_of params) (inr data)) s1))))
               | Some e =>
                   Raised e
                     (count_write
                        (log (EvWrite (n_connect s) WRITE_UUID data (Some e))
                           (log (EvEncode command_name (positional_of params)
                                   (keywords_of params) (inr data)) s1)))
               end
           end
         else Done tt (log (EvPrint (unknown_command command_name)) s1))
      (ble_disconnect env (n_connect s))
      (log (EvPrint "[INFO] Connected to the device")
         (count_connect
            (log (EvConnect address (n_connect s) (Returned true)) s))).
Proof.
  intros Hc. unfold execute_command. unfold bind at 1.
  rewrite (connect_to_device_first_try env address fuel s Hc).
  unfold try_finally. rewrite one_shot_body_cases. reflexivity.
Qed.

(** X12.  One-shot mode, when all goes well: with a device that connects
    at the first attempt, a registered command whose arguments the encoder
    accepts, a write the device takes and a disconnect that returns, the
    run is the connect call, the encoder call on the positional and keyword
    arguments of the parameters, one write of the encoder's bytes, the line
    that reports success and the disconnect, and the exit status is 0. *)
Theorem one_shot_success (command_name : string) (params : list string)
    (data : bytes) (fuel : nat) (s : state) :
  connect_script env (n_connect s) = Returned true ->
  In command_name COMMANDS ->
  encoder env command_name (positional_of params) (keywords_of params)
  = inr data ->
  write_script env (n_write s) = None ->
  disconnect_script env (n_disconnect s) = None ->
  exists s',
    main env (S fuel) (parse_args (one_shot (command_name :: params) address)) s
    = Done tt s'
    /\ trace s'
       = trace s
           ++ [EvConnect address (n_connect s) (Returned true);
               EvPrint "[INFO] Connected to the device";
               EvEncode command_name (positional_of params)
                 (keywords_of params) (inr data);
               EvWrite (n_connect s) "0000fa02-0000-1000-8000-00805f9b34fb"
                 data None;
               EvPrint ("[INFO] Command '" ++ command_name
                          ++ "' executed successfully.")%string;
               EvDisconnect (n_connect s) None]
    /\ exit_status
         (main env (S fuel)
            (parse_args (one_shot (command_name :: params) address)) s)
       = Some 0%Z.
Proof.
  intros Hc Hreg Henc Hw Hd.
  change (main env (S fuel)
            (parse_args (one_shot (command_name :: params) address)) s)
    with (execute_command env (S fuel) command_name params address s).
  rewrite (execute_command_acquired fuel command_name params s Hc).
  rewrite try_finally_disconnect.
  replace (existsb (String.eqb command_name) COMMANDS) with true
    by (symmetry; apply existsb_exists; exists command_name;
        split; [exact Hreg | apply String.eqb_refl]).
  rewrite Henc. cbn [n_write log count_connect]. rewrite Hw.
  cbv zeta. cbn [n_disconnect log count_connect count_write]. rewrite Hd.
  eexists. split; [reflexivity|]. split; [|reflexivity].
  cbn [trace log count_connect count_write count_disconnect].
  repeat rewrite <- app_assoc. reflexivity.
Qed.

(** X13.  One-shot mode does not catch the exception of an encoder: with a
    device that connects at the first attempt and a registered command
    whose encoder raises, no write is made, the client is disconnected,
    and the exception leaves the main block, so that the exit status is
    1. *)
Theorem one_shot_encoder_failure (command_name : string)
    (params : list string) (e : exn) (fuel : nat) (s : state) :
  connect_script env (n_connect s) = Returned true ->
  In command_name COMMANDS ->
  encoder env command_name (positional_of params) (keywords_of params)
  = inl e ->
  disconnect_script env (n_disconnect s) = None ->
  exists s',
    main env (S fuel) (parse_args (one_shot (command_name :: params) address)) s
    = Raised e s'
    /\ trace s'
       = trace s
           ++ [EvConnect address (n_connect s) (Returned true);
               EvPrint "[INFO] Connected to the device";
               EvEncode command_name (positional_of params)
                 (keywords_of params) (inl e);
               EvDisconnect (n_connect s) None]
    /\ exit_status
         (main env (S fuel)
            (parse_args (one_shot (command_name :: params) address)) s)
       = Some 1%Z.
Proof.
  intros Hc Hreg Henc Hd.
  change (main env (S fuel)
            (parse_args (one_shot (command_name :: params) address)) s)
    with (execute_command env (S fuel) command_name params address s).
  rewrite (execute_command_acquired fuel command_name params s Hc).
  rewrite try_finally_disconnect.
  replace (existsb (String.eqb command_name) COMMANDS) with true
    by (symmetry; apply existsb_exists; exists command_name;
        split; [exact Hreg | apply String.eqb_refl]).
  rewrite Henc.
  cbv zeta. cbn [n_disconnect log count_connect]. rewrite Hd.
  eexists. split; [reflexivity|]. split; [|reflexivity].
  cbn [trace log count_connect count_disconnect].
  repeat rewrite <- app_assoc. reflexivity.
Qed.

(** X14.  One-shot mode does not recover from a write the device refuses:
    the write is made once, the client is disconnected, no second connect
    call is made, and the exception leaves the main block, so that the exit
    status is 1. *)
Theorem one_shot_write_failure (command_name : string) (params : list string)
    (data : bytes) (e : exn) (fuel : nat) (s : state) :
  connect_script env (n_connect s) = Returned true ->
  In command_name COMMANDS ->
  encoder env command_name (positional_of params) (keywords_of params)
  = inr data ->
  write_script env (n_write s) = Some e ->
  disconnect_script env (n_disconnect s) = None ->
  exists s',
    main env (S fuel) (parse_args (one_shot (command_name :: params) address)) s
    = Raised e s'
    /\ trace s'
       = trace s
           ++ [EvConnect address (n_connect s) (Returned true);
               EvPrint "[INFO] Connected to the device";
               EvEncode command_name (positional_of params)
                 (keywords_of params) (inr data);
               EvWrite (n_connect s) "0000fa02-0000-1000-8000-00805f9b34fb"
                 data (Some e);
               EvDisconnect (n_connect s) None]
    /\ exit_status
         (main env (S fuel)
            (parse_args (one_shot (command_name :: params) address)) s)
       = Some 1%Z.
Proof.
  intros Hc Hreg Henc Hw Hd.
  change (main env (S fuel)
            (parse_args (one_shot (command_name :: params) address)) s)
    with (execute_command env (S fuel) command_name params address s).
  rewrite (execute_command_acquired fuel command_name params s Hc).
  rewrite try_finally_disconnect.
  replace (existsb (String.eqb command_name) COMMANDS) with true
    by (symmetry; apply existsb_exists; exists command_name;
        split; [exact Hreg | apply String.eqb_refl]).
  rewrite Henc. cbn [n_write log count_connect]. rewrite Hw.
  cbv zeta. cbn [n_disconnect log count_connect count_write]. rewrite Hd.
  eexists. split; [reflexivity|]. split; [|reflexivity].
  cbn [trace log count_connect count_write count_disconnect].
  repeat rewrite <- app_assoc. reflexivity.
Qed.

(** X15.  One-shot mode with a command name that is not registered still
    connects to the device: it then prints the line that names the unknown
    command, calls no encoder, makes no write, disconnects, and ends with
    exit status 0. *)
Theorem one_shot_unknown_command (command_name : string)
    (params : list string) (fuel : nat) (s : state) :
  connect_script env (n_connect s) = Returned true ->
  ~ In command_name COMMANDS ->
  disconnect_script env (n_disconnect s) = None ->
  exists s',
    main env (S fuel) (parse_args (one_shot (command_name :: params) address)) s
    = Done tt s'
    /\ trace s'
       = trace s
           ++ [EvConnect address (n_connect s) (Returned true);
               EvPrint "[INFO] Connected to the device";
               EvPrint ("[ERROR] Unknown command: " ++ command_name)%string;
               EvDisconnect (n_connect s) None]
    /\ exit_status
         (main env (S fuel)
            (parse_args (one_shot (command_name :: params) address)) s)
       = Some 0%Z.
Proof.
  intros Hc Hreg Hd.
  change (main env (S fuel)
            (parse_args (one_shot (command_name :: params) address)) s)
    with (execute_command env (S fuel) command_name params address s).
  rewrite (execute_command_acquired fuel command_name params s Hc).
  rewrite try_finally_disconnect.
  replace (existsb (String.eqb command_name) COMMANDS) with false.
  2: { symmetry. destruct (existsb (String.eqb command_name) COMMANDS) eqn:E;
         [|reflexivity].
       apply existsb_exists in E. destruct E as [n [Hin Heq]].
       apply String.eqb_eq in Heq. subst n. contradiction. }
  cbv zeta. cbn [n_disconnect log count_connect]. rewrite Hd.
  eexists. split; [reflexivity|]. split; [|reflexivity].
  cbn [trace log count_connect count_disconnect].
  repeat rewrite <- app_assoc. reflexivity.
Qed.

End OneShot.

Lemma one_shot_success_witness :
  connect_script quiet (n_connect initial) = Returned true
  /\ In "set_brightness"%string COMMANDS
  /\ encoder quiet "set_brightness" (positional_of ["80"]) (keywords_of ["80"])
     = inr [Byte.x01]
  /\ write_script quiet (n_write initial) = None
  /\ disconnect_script quiet (n_disconnect initial) = None
  /\ exists s',
       main quiet 1
         (parse_args (one_shot ["set_brightness"; "80"] "AA:BB")) initial
       = Done tt s'
       /\ trace s'
          = trace initial
              ++ [EvConnect "AA:BB" (n_connect initial) (Returned true);
                  EvPrint "[INFO] Connected to the device";
                  EvEncode "set_brightness" (positional_of ["80"])
                    (keywords_of ["80"]) (inr [Byte.x01]);
                  EvWrite (n_connect initial)
                    "0000fa02-0000-1000-8000-00805f9b34fb" [Byte.x01] None;
                  EvPrint ("[INFO] Command '" ++ "set_brightness"
                             ++ "' executed successfully.")%string;
                  EvDisconnect (n_connect initial) None]
       /\ exit_status
            (main quiet 1
               (parse_args (one_shot ["set_brightness"; "80"] "AA:BB"))
               initial)
          = Some 0%Z.
Proof.
  assert (Hin : In "set_brightness"%string COMMANDS) by (simpl; tauto).
  repeat (split; [first [reflexivity | exact Hin]|]).
  apply (one_shot_success quiet "AA:BB" "set_brightness" ["80"] [Byte.x01] 0
           initial); first [reflexivity | exact Hin].
Defined.

Lemma one_shot_encoder_failure_witness :
  connect_script refusing (n_connect initial) = Returned true
  /\ In "set_brightness"%string COMMANDS
  /\ encoder refusing "set_brightness" (positional_of ["x"]) (keywords_of ["x"])
     = inl bad_value
  /\ disconnect_script refusing (n_disconnect initial) = None
  /\ exists s',
       main refusing 1
         (parse_args (one_shot ["set_brightness"; "x"] "AA:BB")) initial
       = Raised bad_value s'
       /\ trace s'
          = trace initial
              ++ [EvConnect "AA:BB" (n_connect initial) (Returned true);
                  EvPrint "[INFO] Connected to the device";
                  EvEncode "set_brightness" (positional_of ["x"])
                    (keywords_of ["x"]) (inl bad_value);
                  EvDisconnect (n_connect initial) None]
       /\ exit_status
            (main refusing 1
               (parse_args (one_shot ["set_brightness"; "x"] "AA:BB")) initial)
          = Some 1%Z.
Proof.
  assert (Hin : In "set_brightness"%string COMMANDS) by (simpl; tauto).
  repeat (split; [first [reflexivity | exact Hin]|]).
  apply (one_shot_encoder_failure refusing "AA:BB" "set_brightness" ["x"]
           bad_value 0 initial); first [reflexivity | exact Hin].
Defined.

Lemma one_shot_write_failure_witness :
  connect_script refusing_writes (n_connect initial) = Returned true
  /\ In "clear"%string COMMANDS
  /\ encoder refusing_writes "clear" (positional_of []) (keywords_of [])
     = inr [Byte.x01]
  /\ write_script refusing_writes (n_write initial)
     = Some (BleakError "not connected")
  /\ disconnect_script refusing_writes (n_disconnect initial) = None
  /\ exists s',
       main refusing_writes 1 (parse_args (one_shot ["clear"] "AA:BB")) initial
       = Raised (BleakError "not connected") s'
       /\ trace s'
          = trace initial
              ++ [EvConnect "AA:BB" (n_connect initial) (Returned true);
                  EvPrint "[INFO] Connected to the device";
                  EvEncode "clear" (positional_of []) (keywords_of [])
                    (inr [Byte.x01]);
                  EvWrite (n_connect initial)
                    "0000fa02-0000-1000-8000-00805f9b34fb" [Byte.x01]
                    (Some (BleakError "not connected"));
                  EvDisconnect (n_connect initial) None]
       /\ exit_status
            (main refusing_writes 1 (parse_args (one_shot ["clear"] "AA:BB"))
               initial)
          = Some 1%Z.
Proof.
  assert (Hin : In "clear"%string COMMANDS) by (simpl; tauto).
  repeat (split; [first [reflexivity | exact Hin]|]).
  apply (one_shot_write_failure refusing_writes "AA:BB" "clear" [] [Byte.x01]
           (BleakError "not connected") 0 initial);
    first [reflexivity | exact Hin].
Defined.

Lemma not_in_COMMANDS_bogus : ~ In "bogus"%string COMMANDS.
Proof. simpl. intuition discriminate. Qed.

Lemma one_shot_unknown_command_witness :
  connect_script quiet (n_connect initial) = Returned true
  /\ ~ In "bogus"%string COMMANDS
  /\ disconnect_script quiet (n_disconnect initial) = None
  /\ exists s',
       main quiet 1 (parse_args (one_shot ["bogus"; "1"] "AA:BB")) initial
       = Done tt s'
       /\ trace s'
          = trace initial
              ++ [EvConnect "AA:BB" (n_connect initial) (Returned true);
                  EvPrint "[INFO] Connected to the device";
                  EvPrint ("[ERROR] Unknown command: " ++ "bogus")%string;
                  EvDisconnect (n_connect initial) None]
       /\ exit_status
            (main quiet 1 (parse_args (one_shot ["bogus"; "1"] "AA:BB"))
               initial)
          = Some 0%Z.
Proof.
  split; [reflexivity|]. split; [exact not_in_COMMANDS_bogus|].
  split; [reflexivity|].
  apply (one_shot_unknown_command quiet "AA:BB" "bogus" ["1"] 0 initial);
    first [reflexivity | exact not_in_COMMANDS_bogus].
Defined.

(** ** A device that cannot be reached *)

Section Unreachable.

Variable env : Env.
Variable path address : string.

Lemma connect_to_device_gives_up (errors : list string) (fuel : nat)
    (s : state) :
  (forall i m, nth_error errors i = Some m ->
               connect_script env (n_connect s + i)
               = ConnectRaised (BleakError m)) ->
  length errors = 5 ->
  5 <= fuel ->
  exists s',
    connect_to_device env fuel address default_max_retries s = Done None s'
    /\ trace s'
       = trace s
           ++ failed_attempts address 5%Z (n_connect s) 0 errors
           ++ [gave_up]
    /\ n_disconnect s' = n_disconnect s.
Proof.
  intros Hl Hlen Hfuel. unfold connect_to_device, default_max_retries.
  destruct (connect_loop_failures env address 5%Z errors 0%Z fuel s Hl)
    as [s' [Hrun [Htr [_ [_ [_ [_ Hd]]]]]]]; [lia | lia |].
  rewrite Hrun, connect_loop_exhausted by lia.
  eexists. split; [reflexivity|].
  cbn [trace log n_disconnect]. rewrite Htr.
  split; [repeat rewrite <- app_assoc; reflexivity | exact Hd].
Qed.

(** X16.  When the five connect calls of acquisition all fail with a
    [BleakError], both handlers end without an exception and without a
    word to the client: the server-mode handler receives nothing and sends
    no response, the one-shot path calls no encoder, nothing is written or
    disconnected, and the exit status of one-shot mode is 0. *)
Theorem unreachable_device_ends_silently (errors : list string)
    (command_name : string) (params : list string) (fuel : nat) (s : state) :
  (forall i m, nth_error errors i = Some m ->
               connect_script env (n_connect s + i)
               = ConnectRaised (BleakError m)) ->
  length errors = 5 ->
  5 <= fuel ->
  exists s',
    handle_websocket env (S fuel) path address s = Done tt s'
    /\ main env fuel (parse_args (one_shot (command_name :: params) address)) s
       = Done tt s'
    /\ trace s'
       = trace s
           ++ failed_attempts address 5%Z (n_connect s) 0 errors
           ++ [EvPrint "[ERROR] Could not connect to the device after multiple attempts"]
    /\ exit_status
         (main env fuel
            (parse_args (one_shot (command_name :: params) address)) s)
       = Some 0%Z.
Proof.
  intros Hl Hlen Hfuel.
  destruct (connect_to_device_gives_up errors fuel s Hl Hlen Hfuel)
    as [s' [Hrun [Htr _]]].
  exists s'.
  change (main env fuel
            (parse_args (one_shot (command_name :: params) address)) s)
    with (execute_command env fuel command_name params address s).
  rewrite handle_websocket_step. unfold execute_command, bind.
  rewrite Hrun. repeat split. exact Htr.
Qed.

(** X17.  When the link is lost at the receive layer and the device cannot
    be reached again, the handler entered for the recovery gives up after
    its five connect calls, and the first handler disconnects its client
    and returns: the client of the WebSocket gets no response and the
    connection is not told of the failure. *)
Theorem lost_link_unreachable_device (errors : list string) (l : string)
    (fuel : nat) (s : state) :
  connect_script env (n_connect s) = Returned true ->
  recv_script env (n_recv s) = RecvRaised (BleakError l) ->
  (forall i m, nth_error errors i = Some m ->
               connect_script env (S (n_connect s) + i)
               = ConnectRaised (BleakError m)) ->
  length errors = 5 ->
  disconnect_script env (n_disconnect s) = None ->
  5 <= fuel ->
  exists s',
    handle_websocket env (S (S fuel)) path address s = Done tt s'
    /\ trace s'
       = trace s
           ++ [EvConnect address (n_connect s) (Returned true);
               EvPrint "[INFO] Connected to the device";
               EvRecv (RecvRaised (BleakError l));
               EvPrint "[ERROR] BLE connection lost, attempting to reconnect..."]
           ++ failed_attempts address 5%Z (S (n_connect s)) 0 errors
           ++ [EvPrint "[ERROR] Could not connect to the device after multiple attempts";
               EvDisconnect (n_connect s) None]
    /\ count is_send
         ([EvConnect address (n_connect s) (Returned true);
           EvPrint "[INFO] Connected to the device";
           EvRecv (RecvRaised (BleakError l));
           EvPrint "[ERROR] BLE connection lost, attempting to reconnect..."]
          ++ failed_attempts address 5%Z (S (n_connect s)) 0 errors
          ++ [EvPrint "[ERROR] Could not connect to the device after multiple attempts";
              EvDisconnect (n_connect s) None])
       = 0.
Proof.
  intros Hc Hr Hl Hlen Hd Hfuel.
  rewrite handle_websocket_step. unfold bind at 1.
  rewrite (connect_to_device_first_try env address fuel s Hc).
  rewrite try_finally_disconnect. unfold try_except.
  rewrite (session_loop_recv_raises env fuel (n_connect s) (BleakError l))
    by exact Hr.
  unfold bind at 1. unfold print at 1.
  rewrite handle_websocket_step. unfold bind at 1.
  match goal with
  | |- context [connect_to_device env fuel address default_max_retries ?s3] =>
      destruct (connect_to_device_gives_up errors fuel s3)
        as [s' [Hrun [Htr Hnd]]]; [exact Hl | exact Hlen | exact Hfuel |]
  end.
  rewrite Hrun. unfold ret. cbv zeta.
  cbn [n_disconnect log count_connect count_recv] in Hnd.
  rewrite Hnd, Hd.
  eexists. split; [reflexivity|]. split.
  - cbn [trace log count_connect count_recv count_disconnect] in *.
    rewrite Htr. repeat rewrite <- app_assoc. reflexivity.
  - rewrite !count_app.
    assert (Hs : forall h r es,
              count is_send (failed_attempts address 5%Z h r es) = 0).
    { intros h r es. revert h r.
      induction es as [|m rest IH]; intros h r; [reflexivity|].
      cbn [failed_attempts]. rewrite !count_cons. cbn [is_send].
      rewrite IH. reflexivity. }
    rewrite Hs. reflexivity.
Qed.

End Unreachable.

Lemma unreachable_device_ends_silently_witness :
  (forall i m,
     nth_error (repeat "device not found"%string 5) i = Some m ->
     connect_script out_of_reach (n_connect initial + i)
     = ConnectRaised (BleakError m))
  /\ length (repeat "device not found"%string 5) = 5
  /\ 5 <= 5
  /\ exists s',
       handle_websocket out_of_reach 6 "/" "AA:BB" initial = Done tt s'
       /\ main out_of_reach 5 (parse_args (one_shot ["clear"] "AA:BB")) initial
          = Done tt s'
       /\ trace s'
          = trace initial
              ++ failed_attempts "AA:BB" 5%Z (n_connect initial) 0
                   (repeat "device not found"%string 5)
              ++ [EvPrint "[ERROR] Could not connect to the device after multiple attempts"]
       /\ exit_status
            (main out_of_reach 5 (parse_args (one_shot ["clear"] "AA:BB"))
               initial)
          = Some 0%Z.
Proof.
  assert (Hl : forall i m,
             nth_error (repeat "device not found"%string 5) i = Some m ->
             connect_script out_of_reach (n_connect initial + i)
             = ConnectRaised (BleakError m)).
  { intros i m H.
    do 5 (destruct i as [|i]; [injection H as <-; reflexivity|]).
    destruct i; discriminate H. }
  split; [exact Hl|]. split; [reflexivity|]. split; [lia|].
  apply (unreachable_device_ends_silently out_of_reach "/" "AA:BB"
           (repeat "device not found"%string 5) "clear" [] 5 initial Hl
           eq_refl (le_n 5)).
Defined.

Lemma lost_link_unreachable_device_witness :
  connect_script lost_for_good (n_connect initial) = Returned true
  /\ recv_script lost_for_good (n_recv initial)
     = RecvRaised (BleakError "lost")
  /\ (forall i m,
        nth_error (repeat "device not found"%string 5) i = Some m ->
        connect_script lost_for_good (S (n_connect initial) + i)
        = ConnectRaised (BleakError m))
  /\ length (repeat "device not found"%string 5) = 5
  /\ disconnect_script lost_for_good (n_disconnect initial) = None
  /\ 5 <= 5
  /\ exists s',
       handle_websocket lost_for_good 7 "/" "AA:BB" initial = Done tt s'
       /\ trace s'
          = trace initial
              ++ [EvConnect "AA:BB" (n_connect initial) (Returned true);
                  EvPrint "[INFO] Connected to the device";
                  EvRecv (RecvRaised (BleakError "lost"));
                  EvPrint "[ERROR] BLE connection lost, attempting to reconnect..."]
              ++ failed_attempts "AA:BB" 5%Z (S (n_connect initial)) 0
                   (repeat "device not found"%string 5)
              ++ [EvPrint "[ERROR] Could not connect to the device after multiple attempts";
                  EvDisconnect (n_connect initial) None]
       /\ count is_send
            ([EvConnect "AA:BB" (n_connect initial) (Returned true);
              EvPrint "[INFO] Connected to the device";
              EvRecv (RecvRaised (BleakError "lost"));
              EvPrint "[ERROR] BLE connection lost, attempting to reconnect..."]
             ++ failed_attempts "AA:BB" 5%Z (S (n_connect initial)) 0
                  (repeat "device not found"%string 5)
             ++ [EvPrint "[ERROR] Could not connect to the device after multiple attempts";
                 EvDisconnect (n_connect initial) None])
          = 0.
Proof.
  assert (Hl : forall i m,
             nth_error (repeat "device not found"%string 5) i = Some m ->
             connect_script lost_for_good (S (n_connect initial) + i)
             = ConnectRaised (BleakError m)).
  { intros i m H.
    do 5 (destruct i as [|i]; [injection H as <-; reflexivity|]).
    destruct i; discriminate H. }
  split; [reflexivity|]. split; [reflexivity|]. split; [exact Hl|].
  split; [reflexivity|]. split; [reflexivity|]. split; [lia|].
  apply (lost_link_unreachable_device lost_for_good "/" "AA:BB"
           (repeat "device not found"%string 5) "lost" 5 initial
           eq_refl eq_refl Hl eq_refl eq_refl (le_n 5)).
Defined.

(** ** More on the parameter loop *)

Lemma setitem_keys {A : Type} (k : string) (v : A) (d : list (string * A)) :
  map fst (setitem k v d)
  = match lookup k d with
    | Some _ => map fst d
    | None => map fst d ++ [k]
    end.
Proof.
  induction d as [|[k0 v0] d IH]; simpl; [reflexivity|].
  destruct (String.eqb k k0) eqn:E; simpl.
  - apply String.eqb_eq in E. subst k0. reflexivity.
  - rewrite IH. destruct (lookup k d); reflexivity.
Qed.

Lemma lookup_None_keys {A : Type} (k : string) (d : list (string * A)) :
  lookup k d = None -> ~ In k (map fst d).
Proof.
  induction d as [|[k0 v0] d IH]; simpl; [tauto|].
  destruct (String.eqb k k0) eqn:E; [discriminate|].
  intros H [Heq|Hin]; [|exact (IH H Hin)].
  subst k0. rewrite String.eqb_refl in E. discriminate E.
Qed.

Lemma setitem_NoDup {A : Type} (k : string) (v : A) (d : list (string * A)) :
  NoDup (map fst d) -> NoDup (map fst (setitem k v d)).
Proof.
  intros H. rewrite setitem_keys. destruct (lookup k d) eqn:E; [exact H|].
  apply NoDup_app; [exact H | repeat constructor; simpl; tauto |].
  intros x Hx [Heq|[]]. subst x. exact (lookup_None_keys _ _ E Hx).
Qed.

Lemma setitem_In {A : Type} (k : string) (v : A) (d : list (string * A))
    (k' : string) (v' : A) :
  In (k', v') (setitem k v d) -> (k', v') = (k, v) \/ In (k', v') d.
Proof.
  induction d as [|[k0 v0] d IH]; simpl.
  - intros [H|[]]. left. symmetry. exact H.
  - destruct (String.eqb k k0); simpl.
    + intros [H|H]; [left; symmetry; exact H | right; right; exact H].
    + intros [H|H]; [right; left; exact H|].
      destruct (IH H) as [H'|H']; [left; exact H' | right; right; exact H'].
Qed.

Lemma insert_all_NoDup (entries : list (string * string)) :
  forall d, NoDup (map fst d) ->
            NoDup (map fst (Envelope.insert_all entries d)).
Proof.
  unfold Envelope.insert_all.
  induction entries as [|e es IH]; intros d H; simpl; [exact H|].
  apply IH. apply setitem_NoDup. exact H.
Qed.

Lemma insert_all_In (entries : list (string * string)) :
  forall d k v,
    In (k, v) (Envelope.insert_all entries d) ->
    In (k, v) entries \/ In (k, v) d.
Proof.
  unfold Envelope.insert_all.
  induction entries as [|[k0 v0] es IH]; intros d k v H; simpl in *.
  - right. exact H.
  - destruct (IH _ _ _ H) as [H'|H']; [left; right; exact H'|].
    destruct (setitem_In _ _ _ _ _ H') as [Heq|Hin];
      [left; left; symmetry; exact Heq | right; exact Hin].
Qed.

Lemma before_no_sep (c : ascii) (s : string) :
  contains c (Envelope.before c s) = false.
Proof.
  induction s as [|a s IH]; simpl; [reflexivity|].
  destruct (Ascii.eqb a c) eqn:E; simpl; [reflexivity|].
  rewrite E. exact IH.
Qed.

Lemma replace_keeps_absent (c a b : ascii) (s : string) :
  Ascii.eqb b c = false ->
  contains c s = false -> contains c (replace a b s) = false.
Proof.
  intros Hb. induction s as [|x s IH]; simpl; [reflexivity|].
  destruct (Ascii.eqb x c) eqn:E; [discriminate|].
  intros H. destruct (Ascii.eqb x a); [rewrite Hb | rewrite E]; exact (IH H).
Qed.

(** X18.  For every list of string tokens the parameter loop raises
    nothing, and what it builds is well formed: no key of the keyword dict
    occurs twice, no key holds a [-] or a [=], and every positional
    argument is one of the tokens and holds no [=]. *)
Theorem parse_params_well_formed (tokens : list string) :
  exists positional keyword,
    parse_params (VList (map VStr tokens)) = inr (positional, keyword)
    /\ NoDup (map fst keyword)
    /\ (forall key val, In (key, val) keyword ->
          contains "-" key = false /\ contains "=" key = false)
    /\ (forall arg, In arg positional ->
          exists token,
            arg = VStr token /\ In token tokens /\ contains "=" token = false).
Proof.
  exists (map VStr (filter Envelope.is_positional tokens)).
  exists (Envelope.insert_all
            (map Envelope.keyword_entry (filter Envelope.is_keyword tokens)) []).
  split; [unfold parse_params; simpl; apply classify_all_tokens|].
  split; [apply insert_all_NoDup; constructor|]. split.
  - intros key val H. apply insert_all_In in H. destruct H as [H|[]].
    apply in_map_iff in H. destruct H as [token [Heq _]].
    unfold Envelope.keyword_entry in Heq. injection Heq as <- _.
    split; [apply normalize_no_dash|].
    rewrite <- replace_normalize.
    apply replace_keeps_absent; [reflexivity | apply before_no_sep].
  - intros arg H. apply in_map_iff in H. destruct H as [token [<- Hin]].
    apply filter_In in Hin. destruct Hin as [Hin Hpos].
    exists token. split; [reflexivity|]. split; [exact Hin|].
    unfold Envelope.is_positional in Hpos.
    destruct (contains "=" token); [discriminate Hpos | reflexivity].
Qed.

(** X19.  A token with an [=] is split at its first [=] and nothing of it
    is lost: the text before, an [=] and the value put together give the
    token again, the text before holds no [=], and the entry of the token
    is that text with every [-] rewritten to [_], with the value as it
    is. *)
Theorem keyword_token_round_trip (token : string) :
  contains "=" token = true ->
  exists key val,
    parse_params (VList [VStr token]) = inr ([], [(replace "-" "_" key, val)])
    /\ token = (key ++ "=" ++ val)%string
    /\ contains "=" key = false.
Proof.
  intros H. exists (Envelope.before "=" token), (Envelope.after "=" token).
  destruct (before_after_split "=" token H) as [Hsplit Hkey].
  split; [|split; [exact Hsplit | exact Hkey]].
  unfold parse_params. cbn [iter classify_all].
  rewrite classify_token. unfold Envelope.is_keyword. rewrite H.
  rewrite replace_normalize. reflexivity.
Qed.

(** X20.  Rewriting the dashes of a key is idempotent and leaves no dash:
    a key rewritten twice is the key rewritten once, it holds no [-], and
    it is as long as the key. *)
Theorem key_normalization_idempotent (key : string) :
  replace "-" "_" (replace "-" "_" key) = replace "-" "_" key
  /\ contains "-" (replace "-" "_" key) = false
  /\ String.length (replace "-" "_" key) = String.length key.
Proof.
  split; [|split].
  - rewrite !replace_normalize. apply normalize_idempotent.
  - rewrite replace_normalize. apply normalize_no_dash.
  - induction key as [|a s IH]; simpl; [reflexivity|].
    rewrite IH. reflexivity.
Qed.

Lemma classify_all_app (l1 : list value) :
  forall l2 acc,
    classify_all (l1 ++ l2) acc
    = match classify_all l1 acc with
      | inl e => inl e
      | inr acc' => classify_all l2 acc'
      end.
Proof.
  induction l1 as [|p l1 IH]; intros l2 acc; simpl; [reflexivity|].
  destruct (classify p acc); [reflexivity | apply IH].
Qed.

(** X21.  A parameter that is neither a string nor a container (a JSON
    number, boolean or null) stops the parameter loop: the test for [=]
    raises a [TypeError], and in server mode the request, even for a
    registered command, is answered with status error and that
    description, with no encoder call and no write. *)
Theorem scalar_param_is_error (env : Env) (client : handle)
    (fields : list (string * value)) (name : string) (tokens : list string)
    (v : value) (rest : list value) (s : state) :
  command_of fields = VStr name ->
  In name COMMANDS ->
  params_of fields = VList (map VStr tokens ++ v :: rest) ->
  is_scalar v = true ->
  parse_params (params_of fields) = inl (not_a_container v)
  /\ process_message env client (inr (VDict fields)) s
     = Done [("status", "error"); ("message", str (not_a_container v))] s.
Proof.
  intros Hname Hreg Hparams Hv.
  assert (Hp : parse_params (params_of fields) = inl (not_a_container v)).
  { rewrite Hparams. unfold parse_params. cbn [iter].
    rewrite classify_all_app, classify_all_tokens. cbn [classify_all].
    destruct v; try discriminate Hv; reflexivity. }
  split; [exact Hp|].
  rewrite process_message_cases. simpl get.
  fold (command_of fields). fold (params_of fields).
  rewrite Hname, dispatch_cases, (in_COMMANDS_registered _ Hreg), Hp.
  reflexivity.
Qed.

Lemma keyword_token_round_trip_witness :
  contains "=" "y=5=6" = true
  /\ exists key val,
       parse_params (VList [VStr "y=5=6"])
       = inr ([], [(replace "-" "_" key, val)])
       /\ "y=5=6"%string = (key ++ "=" ++ val)%string
       /\ contains "=" key = false.
Proof.
  split; [reflexivity|].
  apply (keyword_token_round_trip "y=5=6"). reflexivity.
Defined.

Lemma scalar_param_is_error_witness :
  command_of [("command", VStr "set_brightness"); ("params", VList [VInt 80])]
  = VStr "set_brightness"
  /\ In "set_brightness"%string COMMANDS
  /\ params_of
       [("command", VStr "set_brightness"); ("params", VList [VInt 80])]
     = VList (map VStr [] ++ VInt 80 :: [])
  /\ is_scalar (VInt 80) = true
  /\ parse_params
       (params_of
          [("command", VStr "set_brightness"); ("params", VList [VInt 80])])
     = inl (not_a_container (VInt 80))
  /\ process_message quiet 0
       (inr (VDict [("command", VStr "set_brightness");
                    ("params", VList [VInt 80])])) initial
     = Done [("status", "error");
             ("message", str (not_a_container (VInt 80)))] initial.
Proof.
  assert (Hin : In "set_brightness"%string COMMANDS) by (simpl; tauto).
  repeat (split; [first [reflexivity | exact Hin]|]).
  apply (scalar_param_is_error quiet 0
           [("command", VStr "set_brightness"); ("params", VList [VInt 80])]
           "set_brightness" [] (VInt 80) [] initial);
    first [reflexivity | exact Hin].
Defined.

(** The response to the request of this witness. *)
Example number_param_response :
  process_message quiet 0
    (inr (VDict [("command", VStr "set_brightness");
                 ("params", VList [VInt 80])])) initial
  = Done [("status", "error");
          ("message", "argument of type 'int' is not iterable")] initial.
Proof. reflexivity. Qed.

Lemma setitem_twice {A : Type} (k : string) (v : A) (d : list (string * A)) :
  setitem k v (setitem k v d) = setitem k v d.
Proof.
  induction d as [|[k0 v0] d IH]; simpl.
  - rewrite String.eqb_refl. reflexivity.
  - destruct (String.eqb k k0) eqn:E; simpl.
    + rewrite String.eqb_refl. reflexivity.
    + rewrite E, IH. reflexivity.
Qed.

Lemma classify_all_chars (s : string) :
  forall acc,
    classify_all (chars s) acc
    = inr (fst acc ++ filter (fun v => negb (is_eq_sign v)) (chars s),
           if contains "=" s then setitem "" "" (snd acc) else snd acc).
Proof.
  induction s as [|c s IH]; intros [pos kw].
  - simpl. rewrite app_nil_r. reflexivity.
  - cbn [chars classify_all]. unfold classify at 1.
    cbn [has_eq_sign contains filter is_eq_sign String.eqb].
    destruct (Ascii.eqb c "=") eqn:E.
    + apply Ascii.eqb_eq in E. subst c. cbn. rewrite IH. cbn [fst snd].
      rewrite setitem_twice. destruct (contains "=" s); reflexivity.
    + cbn. rewrite IH. cbn [fst snd].
      rewrite <- app_assoc. reflexivity.
Qed.

(** X22.  When [params] is a string and not a list, the parameter loop
    runs over its characters: every character other than [=] becomes a
    positional argument of its own, and the keyword dict holds the one
    entry of the empty key with the empty value when the string holds an
    [=], and nothing otherwise. *)
Theorem string_params_run_over_characters (s : string) :
  parse_params (VStr s)
  = inr (filter (fun v => negb (is_eq_sign v)) (chars s),
         if contains "=" s then [(""%string, ""%string)] else []).
Proof.
  unfold parse_params. cbn [iter]. rewrite classify_all_chars.
  cbn [fst snd app]. destruct (contains "=" s); reflexivity.
Qed.

Example string_params_80 :
  parse_params (VStr "80") = inr ([VStr "8"; VStr "0"], []).
Proof. reflexivity. Qed.

(** ** A session that goes well *)

Section Serving.

Variable env : Env.

Lemma session_loop_serves_one (c : handle) (r : request) (fuel : nat)
    (s : state) :
  served_at env s 0 r ->
  session_loop env (S fuel) c s
  = session_loop env fuel c
      (count_send
         (log (EvSend (success (fst (fst r))) None)
            (count_write
               (log (EvWrite c WRITE_UUID (snd r) None)
                  (log (EvEncode (fst (fst r)) (positional_of (snd (fst r)))
                          (keywords_of (snd (fst r))) (inr (snd r)))
                     (count_recv (log (EvRecv (request_message r)) s))))))).
Proof.
  intros [Hr [Hreg [Henc [Hw Hs]]]].
  rewrite Nat.add_0_r in Hr, Hw, Hs.
  destruct r as [[name tokens] data]. cbn [fst snd] in *.
  cbn [session_loop]. unfold bind at 1. unfold ws_recv. rewrite Hr.
  unfold request_message at 1. unfold bind at 1.
  rewrite process_message_cases.
  change (get (VDict (request_fields (name, tokens, data))) "command" VNone)
    with (inr (VStr name) : result value).
  change (get (VDict (request_fields (name, tokens, data))) "params" (VList []))
    with (inr (VList (map VStr tokens)) : result value).
  cbv iota beta.
  rewrite dispatch_cases, (in_COMMANDS_registered _ Hreg).
  unfold parse_params. cbn [iter]. rewrite classify_all_tokens.
  cbn [fst snd app].
  fold (positional_of tokens). fold (keywords_of tokens).
  rewrite Henc. cbn [n_write log count_recv]. rewrite Hw.
  unfold bind at 1. unfold ws_send.
  cbn [n_send log count_recv count_write]. rewrite Hs.
  reflexivity.
Qed.

Lemma session_loop_serves (c : handle) (requests : list request) :
  forall (fuel : nat) (s : state),
    (forall i r, nth_error requests i = Some r -> served_at env s i r) ->
    length requests <= fuel ->
    exists s',
      session_loop env fuel c s
      = session_loop env (fuel - length requests) c s'
      /\ trace s' = trace s ++ served_trace c requests
      /\ n_recv s' = n_recv s + length requests
      /\ n_connect s' = n_connect s
      /\ n_disconnect s' = n_disconnect s.
Proof.
  induction requests as [|r rest IH]; intros fuel s Hall Hfuel.
  - exists s. simpl. rewrite Nat.sub_0_r, app_nil_r, Nat.add_0_r.
    repeat split.
  - destruct fuel as [|fuel]; [simpl in Hfuel; lia|].
    rewrite (session_loop_serves_one c r fuel s (Hall 0 r eq_refl)).
    match goal with
    | |- context [session_loop env fuel c ?s1] =>
        destruct (IH fuel s1) as [s' [Hrun [Htr [Hnr [Hnc Hnd]]]]]
    end.
    + intros i r' Hi. destruct (Hall (S i) r' Hi) as [H1 [H2 [H3 [H4 H5]]]].
      unfold served_at.
      cbn [n_recv n_write n_send log count_recv count_write count_send].
      replace (S (n_recv s) + i) with (n_recv s + S i) by lia.
      replace (S (n_write s) + i) with (n_write s + S i) by lia.
      replace (S (n_send s) + i) with (n_send s + S i) by lia.
      repeat split; assumption.
    + simpl in Hfuel. lia.
    + exists s'. split; [exact Hrun|].
      cbn [trace n_recv n_connect n_disconnect log count_recv count_write
             count_send] in *.
      split; [rewrite Htr; cbn [served_trace];
              repeat rewrite <- app_assoc; reflexivity|].
      simpl length. repeat split; lia.
Qed.

(** X23.  A session that goes well: with a device that connects at the
    first attempt and a client that sends requests for registered commands
    which their encoders accept and the device takes, and then closes, the
    handler connects once, serves the requests in the order received, each
    with one encoder call, one write of the encoder's bytes on the one
    client and its success response before the next receive, then logs the
    close, disconnects once and returns. *)
Theorem session_serves_requests_in_order (path address : string)
    (requests : list request) (m : string) (fuel : nat) (s : state) :
  connect_script env (n_connect s) = Returned true ->
  (forall i r, nth_error requests i = Some r -> served_at env s i r) ->
  recv_script env (n_recv s + length requests)
  = RecvRaised (ConnectionClosed m) ->
  disconnect_script env (n_disconnect s) = None ->
  length requests + 2 <= fuel ->
  exists s',
    handle_websocket env fuel path address s = Done tt s'
    /\ trace s'
       = trace s
           ++ [EvConnect address (n_connect s) (Returned true);
               EvPrint "[INFO] Connected to the device"]
           ++ served_trace (n_connect s) requests
           ++ [EvRecv (RecvRaised (ConnectionClosed m));
               EvPrint "[INFO] Websocket connection closed";
               EvDisconnect (n_connect s) None]
    /\ count is_write (served_trace (n_connect s) requests) = length requests
    /\ count is_send (served_trace (n_connect s) requests) = length requests.
Proof.
  intros Hc Hall Hclosed Hd Hfuel.
  destruct fuel as [|fuel]; [lia|].
  rewrite handle_websocket_step. unfold bind at 1.
  destruct fuel as [|fuel]; [lia|].
  rewrite (connect_to_device_first_try env address fuel s Hc).
  rewrite try_finally_disconnect. unfold try_except.
  match goal with
  | |- context [session_loop env (S fuel) (n_connect s) ?s1] =>
      destruct (session_loop_serves (n_connect s) requests (S fuel) s1)
        as [s' [Hrun [Htr [Hnr [Hnc Hnd]]]]]
  end.
  - intros i r Hi. exact (Hall i r Hi).
  - lia.
  - rewrite Hrun.
    destruct (S fuel - length requests) as [|rest] eqn:E; [lia|].
    rewrite (session_loop_recv_raises env rest (n_connect s)
               (ConnectionClosed m))
      by (rewrite Hnr; exact Hclosed).
    unfold print. cbv zeta.
    cbn [n_disconnect log count_recv count_connect] in *.
    rewrite Hnd, Hd.
    eexists. split; [reflexivity|]. split.
    + cbn [trace log count_recv count_connect count_disconnect] in *.
      rewrite Htr. repeat rewrite <- app_assoc. reflexivity.
    + clear. induction requests as [|r rest IH]; [split; reflexivity|].
      destruct IH as [IHw IHs]. cbn [served_trace].
      rewrite !count_cons. cbn [is_write is_send]. rewrite IHw, IHs.
      split; reflexivity.
Qed.

End Serving.

Lemma served_two_requests :
  forall i r, nth_error two_requests i = Some r -> served_at serving initial i r.
Proof.
  intros i r H.
  do 2 (destruct i as [|i];
        [injection H as <-;
         repeat split; try reflexivity; simpl; tauto|]).
  destruct i; discriminate H.
Qed.

Lemma session_serves_requests_in_order_witness :
  connect_script serving (n_connect initial) = Returned true
  /\ (forall i r, nth_error two_requests i = Some r ->
                  served_at serving initial i r)
  /\ recv_script serving (n_recv initial + length two_requests)
     = RecvRaised (ConnectionClosed "connection closed")
  /\ disconnect_script serving (n_disconnect initial) = None
  /\ length two_requests + 2 <= 4
  /\ exists s',
       handle_websocket serving 4 "/" "AA:BB" initial = Done tt s'
       /\ trace s'
          = trace initial
              ++ [EvConnect "AA:BB" (n_connect initial) (Returned true);
                  EvPrint "[INFO] Connected to the device"]
              ++ served_trace (n_connect initial) two_requests
              ++ [EvRecv (RecvRaised (ConnectionClosed "connection closed"));
                  EvPrint "[INFO] Websocket connection closed";
                  EvDisconnect (n_connect initial) None]
       /\ count is_write (served_trace (n_connect initial) two_requests)
          = length two_requests
       /\ count is_send (served_trace (n_connect initial) two_requests)
          = length two_requests.
Proof.
  split; [reflexivity|]. split; [exact served_two_requests|].
  split; [reflexivity|]. split; [reflexivity|]. split; [simpl; lia|].
  apply (session_serves_requests_in_order serving "/" "AA:BB" two_requests
           "connection closed" 4 initial eq_refl served_two_requests
           eq_refl eq_refl).
  simpl. lia.
Defined.

(** The run of this witness, event by event. *)
Example serving_run :
  handle_websocket serving 4 "/" "AA:BB" initial
  = Done tt
      {| trace :=
           [EvConnect "AA:BB" 0 (Returned true);
            EvPrint "[INFO] Connected to the device";
            EvRecv (Message (inr (VDict [("command", VStr "clear");
                                         ("params", VList [])])));
            EvEncode "clear" [] [] (inr [Byte.x01]);
            EvWrite 0 "0000fa02-0000-1000-8000-00805f9b34fb" [Byte.x01] None;
            EvSend [("status", "success"); ("command", "clear")] None;
            EvRecv (Message (inr (VDict [("command", VStr "set_brightness");
                                         ("params", VList [VStr "80"])])));
            EvEncode "set_brightness" [VStr "80"] [] (inr [Byte.x01]);
            EvWrite 0 "0000fa02-0000-1000-8000-00805f9b34fb" [Byte.x01] None;
            EvSend [("status", "success"); ("command", "set_brightness")] None;
            EvRecv (RecvRaised closed);
            EvPrint "[INFO] Websocket connection closed";
            EvDisconnect 0 None];
         n_connect := 1; n_recv := 3; n_write := 2; n_send := 2;
         n_disconnect := 1 |}.
Proof. vm_compute. reflexivity. Qed.

(** ** Exceptions that are not handled *)

(** X24.  When the serve call raises, for a port that is taken say, the
    exception leaves the main block at once: the line that reports the
    start is not printed, no device connection is attempted, and the exit
    status is 1. *)
Theorem server_start_failure (env : Env) (cl : CommandLine) (e : exn)
    (fuel : nat) (s : state) :
  flag_server cl = true ->
  serve_script env = Some e ->
  main env fuel (parse_args cl) s
  = Raised e
      (log (EvServe "localhost"
              (match opt_port cl with Some p => p | None => 4444%Z end)
              (Some e)) s)
  /\ exit_status (main env fuel (parse_args cl) s) = Some 1%Z.
Proof.
  intros Hs He. unfold main, parse_args. simpl. rewrite Hs.
  unfold start_server, bind, ws_serve, default_port. rewrite He.
  split; reflexivity.
Qed.

Lemma server_start_failure_witness :
  flag_server {| flag_server := true; opt_port := Some 8080%Z;
                 opt_command := None; opt_address := "AA:BB" |} = true
  /\ serve_script port_taken
     = Some (PyError "OSError" "address already in use")
  /\ main port_taken 3
       (parse_args {| flag_server := true; opt_port := Some 8080%Z;
                      opt_command := None; opt_address := "AA:BB" |}) initial
     = Raised (PyError "OSError" "address already in use")
         (log (EvServe "localhost"
                 (match
                    opt_port {| flag_server := true; opt_port := Some 8080%Z;
                                opt_command := None; opt_address := "AA:BB" |}
                  with
                  | Some p => p
                  | None => 4444%Z
                  end)
                 (Some (PyError "OSError" "address already in use"))) initial)
  /\ exit_status
       (main port_taken 3
          (parse_args {| flag_server := true; opt_port := Some 8080%Z;
                         opt_command := None; opt_address := "AA:BB" |})
          initial)
     = Some 1%Z.
Proof.
  split; [reflexivity|]. split; [reflexivity|].
  apply (server_start_failure port_taken
           {| flag_server := true; opt_port := Some 8080%Z;
              opt_command := None; opt_address := "AA:BB" |}
           (PyError "OSError" "address already in use") 3 initial);
    reflexivity.
Defined.

(** X25.  An exception of the receive that is neither the close of the
    connection nor a BLE error is not handled by the server-mode handler:
    the client is disconnected, no recovery is tried, no response is sent,
    and the exception leaves the handler. *)
Theorem other_receive_error_leaves_handler (env : Env) (path address : string)
    (cls m : string) (fuel : nat) (s : state) :
  connect_script env (n_connect s) = Returned true ->
  recv_script env (n_recv s) = RecvRaised (PyError cls m) ->
  disconnect_script env (n_disconnect s) = None ->
  exists s',
    handle_websocket env (S (S fuel)) path address s
    = Raised (PyError cls m) s'
    /\ trace s'
       = trace s
           ++ [EvConnect address (n_connect s) (Returned true);
               EvPrint "[INFO] Connected to the device";
               EvRecv (RecvRaised (PyError cls m));
               EvDisconnect (n_connect s) None].
Proof.
  intros Hc Hr Hd.
  rewrite handle_websocket_step. unfold bind at 1.
  rewrite (connect_to_device_first_try env address fuel s Hc).
  rewrite try_finally_disconnect. unfold try_except.
  rewrite (session_loop_recv_raises env fuel (n_connect s) (PyError cls m))
    by exact Hr.
  cbv zeta. cbn [n_disconnect log count_recv count_connect]. rewrite Hd.
  eexists. split; [reflexivity|].
  cbn [trace log count_recv count_connect count_disconnect].
  repeat rewrite <- app_assoc. reflexivity.
Qed.

Lemma other_receive_error_leaves_handler_witness :
  connect_script broken_socket (n_connect initial) = Returned true
  /\ recv_script broken_socket (n_recv initial)
     = RecvRaised (PyError "ProtocolError" "invalid frame")
  /\ disconnect_script broken_socket (n_disconnect initial) = None
  /\ exists s',
       handle_websocket broken_socket 2 "/" "AA:BB" initial
       = Raised (PyError "ProtocolError" "invalid frame") s'
       /\ trace s'
          = trace initial
              ++ [EvConnect "AA:BB" (n_connect initial) (Returned true);
                  EvPrint "[INFO] Connected to the device";
                  EvRecv (RecvRaised (PyError "ProtocolError" "invalid frame"));
                  EvDisconnect (n_connect initial) None].
Proof.
  split; [reflexivity|]. split; [reflexivity|]. split; [reflexivity|].
  apply (other_receive_error_leaves_handler broken_socket "/" "AA:BB"
           "ProtocolError" "invalid frame" 0 initial); reflexivity.
Defined.
